(** * Distributed KMeans orchestration (cuml.dask.cluster.kmeans)

    A shallow embedding of [python/cuml/dask/cluster/kmeans.py]: the
    [KMeans] estimator's [fit], [fit_predict], [predict], [transform]
    and [score] methods and the static worker functions [_func_fit] and
    [_score].

    The estimator is a mutable Python object and the Dask scheduler and
    the communicator are stateful, so the methods are written in a state
    and exception monad over a pair (estimator, cluster).  The cluster
    records a log of the externally visible actions (session opened, task
    submitted, barrier, future inspected, session closed); the ordering
    properties of [fit] are statements about that log.  The reduction of
    [score] is computed in binary64, on the primitive floats. *)

From Stdlib Require Import ZArith Lia Floats.
From stdpp Require Import gmap strings list fin_maps.

Open Scope Z_scope.
Open Scope nat_scope.
Open Scope string_scope.
Open Scope list_scope.

(** ** Data model *)

(** A Dask worker is identified by its address. *)
Abbreviation worker := string (only parsing).

(** [data.datatype]: the layout the caller gets back from inference. *)
Inductive Datatype := Cudf | Cupy.

(** One partition of a Dask collection: an opaque handle with a key and
    a row count. *)
Record Part := mkPart { part_key : nat; part_rows : nat }.

(** A Dask collection as the sharding provider hands it over: the layout
    and, partition by partition, the worker the partition lives on. *)
Record Coll := mkColl {
  coll_type : Datatype;
  coll_parts : list (worker * Part)
}.

(** What one element of [wf[1]] is: a feature partition, or, when weights
    are given, a pair [(X, weights)]. *)
Inductive Obj :=
| OPart (x : Part)
| OPair (x w : Part).

(** [inputs = X if sample_weight is None else (X, sample_weight)] *)
Inductive Inputs :=
| InX (X : Coll)
| InXW (X W : Coll).

(** Hyperparameters [**kwargs] of the estimator. *)
Abbreviation Kwargs := (list (string * Z)) (only parsing).

(** The centroid matrix; its entries are the engine's numbers and are
    never inspected by the orchestration. *)
Abbreviation Centers := (list (list Z)) (only parsing).

(** The single-GPU model a fit task returns. *)
Record LocalModel := mkLocalModel {
  lm_worker : worker;
  lm_cluster_centers_ : Centers
}.

(** Exceptions of a task running on a worker. *)
Inductive TaskExn :=
| KeyError (sid : nat)
| TypeError
| EngineError (msg : string).

(** Exceptions [fit] can leave with. *)
Inductive Exn :=
| ShardAlignmentError
| CommsInitError
| DistributedFitError (causes : list TaskExn)
| FutureError (cause : TaskExn)
| CancelledError
| AttributeError
| IndexError
| CallTypeError.

(** How a task ends. *)
Inductive Outcome :=
| Done (m : LocalModel)
| Failed (e : TaskExn).

(** ** Partition assigner *)

(** The partitions of a collection that live on worker [w], in order. *)
Definition parts_on (w : worker) (ps : list (worker * Part)) : list Part :=
  (filter (λ p, p.1 = w) ps).*2.

Definition rows_on (w : worker) (ps : list (worker * Part)) : list nat :=
  part_rows <$> parts_on w ps.

(** Modelled from the spec: the alignment check of
    [DistributedDataHandler.create] (cuml.dask.common.input_utils).  Each
    worker's weight shards align one-to-one and row-count-exact with that
    worker's feature shards. *)
Definition aligned (X W : list (worker * Part)) : Prop :=
  ∀ w : worker, rows_on w X = rows_on w W.

Definition alignedb (X W : list (worker * Part)) : bool :=
  forallb (λ w, bool_decide (rows_on w X = rows_on w W)) (X.*1 ++ W.*1).

(** Modelled from the spec: how [create] pairs weights with features
    (cuml.dask.common.input_utils).  [take_on w W] is the first partition
    of [W] that lives on [w], and [W] without it. *)
Fixpoint take_on (w : worker) (W : list (worker * Part))
  : option (Part * list (worker * Part)) :=
  match W with
  | [] => None
  | (w', p) :: W' =>
      if decide (w' = w) then Some (p, W')
      else match take_on w W' with
           | Some (q, R) => Some (q, (w', p) :: R)
           | None => None
           end
  end.

(** Modelled from the spec: shards are not moved between workers, so
    every feature partition is paired with the next unused weight
    partition of its own worker; a feature partition without one stays
    alone. *)
Fixpoint pair_parts (X W : list (worker * Part)) : list (worker * Obj) :=
  match X with
  | [] => []
  | (w, x) :: X' =>
      match take_on w W with
      | Some (q, R) => (w, OPair x q) :: pair_parts X' R
      | None => (w, OPart x) :: pair_parts X' W
      end
  end.

(** Modelled from the spec: the worker assignment
    (cuml.dask.common.input_utils) groups the placed objects by worker; a
    worker keeps the position of its first object, as the keys of a
    Python dict do. *)
Fixpoint add_part (w : worker) (o : Obj) (m : list (worker * list Obj))
  : list (worker * list Obj) :=
  match m with
  | [] => [(w, [o])]
  | (w', os) :: m' =>
      if decide (w' = w) then (w', os ++ [o]) :: m'
      else (w', os) :: add_part w o m'
  end.

Definition workers_to_parts (fs : list (worker * Obj))
  : list (worker * list Obj) :=
  foldl (λ m f, add_part f.1 f.2 m) [] fs.

(** [d[w]] on the grouped objects. *)
Fixpoint assoc (w : worker) (m : list (worker * list Obj))
  : option (list Obj) :=
  match m with
  | [] => None
  | (w', os) :: m' => if decide (w' = w) then Some os else assoc w m'
  end.

(** The placed objects that live on worker [w], in order. *)
Definition objs_on (w : worker) (fs : list (worker * Obj)) : list Obj :=
  (filter (λ f, f.1 = w) fs).*2.

(** Modelled from the spec: [DistributedDataHandler]
    (cuml.dask.common.input_utils).  [workers] is
    [tuple(set(...))] of the workers that hold a partition;
    [worker_to_parts] keeps each worker's objects; [multiple] says that
    the input was a tuple, which is how [fit] uses it: it is passed to
    [_func_fit] as [has_weights]. *)
Record DistributedDataHandler := mkDDH {
  gpu_futures : list (worker * Obj);
  workers : gset worker;
  datatype : Datatype;
  multiple : bool;
  worker_to_parts : list (worker * list Obj)
}.

Definition mk_handler (fs : list (worker * Obj)) (t : Datatype) (mult : bool)
  : DistributedDataHandler :=
  {| gpu_futures := fs;
     workers := list_to_set fs.*1;
     datatype := t;
     multiple := mult;
     worker_to_parts := workers_to_parts fs |}.

(** Modelled from the spec: [DistributedDataHandler.create].  Shards stay
    on the worker they are on; misaligned weights are a
    [ShardAlignmentError]. *)
Definition DistributedDataHandler_create (inputs : Inputs)
  : Exn + DistributedDataHandler :=
  match inputs with
  | InX X =>
      inr (mk_handler (prod_map id OPart <$> coll_parts X) (coll_type X) false)
  | InXW X W =>
      if alignedb (coll_parts X) (coll_parts W)
      then inr (mk_handler (pair_parts (coll_parts X) (coll_parts W))
                  (coll_type X) true)
      else inl ShardAlignmentError
  end.

(** ** The cluster: scheduler, workers and communicator *)

(** One array on a worker: the partitions it was glued from, in order,
    and the total number of rows. *)
Record Block := mkBlock { block_parts : list Part; block_rows : nat }.

(** Modelled from the spec: [concatenate]
    (cuml.dask.common.input_utils) makes one array of the shards of a
    worker. *)
Definition concatenate (ps : list Part) : Block :=
  {| block_parts := ps; block_rows := sum_list (part_rows <$> ps) |}.

(** [worker_state(sessionId)["handle"]]: the communicator handle a worker
    holds for a session it is enrolled in. *)
Record Handle := mkHandle { h_session : nat; h_worker : worker }.

(** The positional and keyword arguments of one [client.submit] call. *)
Record FitArgs := mkFitArgs {
  fa_sessionId : nat;
  fa_objs : list Obj;
  fa_datatype : Datatype;
  fa_has_weights : bool;
  fa_kwargs : Kwargs
}.

(** A submitted task: the arguments and the [workers=[...]] restriction. *)
Record Task := mkTask { task_args : FitArgs; task_workers : list worker }.

(** The log of what the orchestrating process does to the cluster. *)
Inductive Event :=
| EvCommsInit (sid : nat) (ws : gset worker)
| EvCommsDestroy (sid : nat)
| EvSubmit (key : nat) (ws : list worker) (args : FitArgs)
| EvWait (keys : list nat)
| EvSettled (key : nat)
| EvInspect (key : nat).

(** The per-worker engine [KMeansMG(handle, output_type, **kwargs).fit
    (inp_data, sample_weight)] is an external collaborator: whatever it
    returns or raises on a worker is a field of the cluster.  So is the
    order in which the scheduler sees tasks finish. *)
Record Cluster := mkCluster {
  events : list Event;
  next_key : nat;
  next_session : nat;
  sessions : gmap nat (gset worker);
  unreachable : gset worker;
  tasks : gmap nat Task;
  settled : gmap nat Outcome;
  arrival : list nat → list nat;
  engine : Handle → Datatype → Kwargs → Block → option Block → Outcome
}.

Definition log (e : Event) (c : Cluster) : Cluster :=
  mkCluster (events c ++ [e]) (next_key c) (next_session c) (sessions c)
    (unreachable c) (tasks c) (settled c) (arrival c) (engine c).

Definition set_sessions (s : gmap nat (gset worker)) (c : Cluster) : Cluster :=
  mkCluster (events c) (next_key c) (next_session c) s
    (unreachable c) (tasks c) (settled c) (arrival c) (engine c).

Definition set_settled (s : gmap nat Outcome) (c : Cluster) : Cluster :=
  mkCluster (events c) (next_key c) (next_session c) (sessions c)
    (unreachable c) (tasks c) s (arrival c) (engine c).

Definition add_task (t : Task) (c : Cluster) : Cluster :=
  mkCluster (events c) (S (next_key c)) (next_session c) (sessions c)
    (unreachable c) (<[next_key c := t]> (tasks c)) (settled c) (arrival c)
    (engine c).

Definition fresh_session (c : Cluster) : Cluster :=
  mkCluster (events c) (next_key c) (S (next_session c)) (sessions c)
    (unreachable c) (tasks c) (settled c) (arrival c) (engine c).

(** The workers enrolled in some open session. *)
Definition enrolled (c : Cluster) : gset worker :=
  ⋃ (map_to_list (sessions c)).*2.

(** Modelled from the spec: [worker_state(sessionId)["handle"]]
    (cuml.dask.common.comms).  A session enrolls exactly the workers it
    was opened over: those, and only those, hold a handle for it. *)
Definition worker_state (c : Cluster) (w : worker) (sid : nat) : option Handle :=
  match sessions c !! sid with
  | Some ws => if decide (w ∈ ws) then Some (mkHandle sid w) else None
  | None => None
  end.

(** The feature partitions of [objs] when no object carries weights;
    objects of the wrong shape are a [TypeError] in the task. *)
Fixpoint all_parts (objs : list Obj) : option (list Part) :=
  match objs with
  | [] => Some []
  | OPart x :: r => cons x <$> all_parts r
  | OPair _ _ :: _ => None
  end.

(** [[X for X, weights in objs]] and [[weights for X, weights in objs]] *)
Fixpoint all_pairs (objs : list Obj) : option (list Part * list Part) :=
  match objs with
  | [] => Some ([], [])
  | OPair x w :: r => (λ xw, (x :: xw.1, w :: xw.2)) <$> all_pairs r
  | OPart _ :: _ => None
  end.

(** [KMeans._func_fit], run on worker [w]. *)
Definition _func_fit (c : Cluster) (w : worker) (sessionId : nat)
    (objs : list Obj) (dt : Datatype) (has_weights : bool) (kw : Kwargs)
  : Outcome :=
  match worker_state c w sessionId with
  | None => Failed (KeyError sessionId)
  | Some handle =>
      if negb has_weights then
        match all_parts objs with
        | Some xs => engine c handle dt kw (concatenate xs) None
        | None => Failed TypeError
        end
      else
        match all_pairs objs with
        | Some (xs, ws) =>
            engine c handle dt kw (concatenate xs) (Some (concatenate ws))
        | None => Failed TypeError
        end
  end.

(** A task restricted to [workers=[w]] runs on [w]. *)
Definition run_task (c : Cluster) (t : Task) : Outcome :=
  let a := task_args t in
  _func_fit c (hd EmptyString (task_workers t)) (fa_sessionId a) (fa_objs a)
    (fa_datatype a) (fa_has_weights a) (fa_kwargs a).

(** Task [k] finishes, unless it already has or was never submitted. *)
Definition settle (c : Cluster) (k : nat) : Cluster :=
  match settled c !! k, tasks c !! k with
  | None, Some t =>
      log (EvSettled k) (set_settled (<[k := run_task c t]> (settled c)) c)
  | _, _ => c
  end.

(** ** The estimator and the monad of its methods *)

Record KMeans := mkKMeans {
  verbose : bool;
  kwargs : Kwargs;
  self_datatype : option Datatype;
  local_model : option LocalModel;
  cluster_centers_ : option Centers
}.

Record World := mkWorld { self : KMeans; cluster : Cluster }.

Definition M (A : Type) : Type := World → (Exn + A) * World.

Global Instance M_ret : MRet M := λ A a σ, (inr a, σ).
Global Instance M_bind : MBind M := λ A B f m σ,
  match m σ with
  | (inr a, σ') => f a σ'
  | (inl e, σ') => (inl e, σ')
  end.

Definition raise {A} (e : Exn) : M A := λ σ, (inl e, σ).
Definition get_self : M KMeans := λ σ, (inr (self σ), σ).
Definition get_cluster : M Cluster := λ σ, (inr (cluster σ), σ).
Definition modify_self (f : KMeans → KMeans) : M () :=
  λ σ, (inr (), mkWorld (f (self σ)) (cluster σ)).
Definition modify_cluster (f : Cluster → Cluster) : M () :=
  λ σ, (inr (), mkWorld (self σ) (f (cluster σ))).
Definition lift_exn {A} (r : Exn + A) : M A := λ σ, (r, σ).

(** ** Communicator session *)

(** A communicator context: the identifier of its session. *)
Record CommsContext := mkComms { sessionId : nat }.

(** Modelled from the spec: [CommsContext(comms_p2p=False, verbose=...)]
    (cuml.dask.common.comms) makes a context with a session identifier of
    its own; nothing is opened yet. *)
Definition CommsContext_new : M CommsContext :=
  c ← get_cluster;
  modify_cluster fresh_session;;
  mret (mkComms (next_session c)).

(** Modelled from the spec: when a session can be opened over [ws]. *)
Definition comms_ready (c : Cluster) (ws : gset worker) : bool :=
  bool_decide (ws ## unreachable c) && bool_decide (ws ## enrolled c).

(** Modelled from the spec: [CommsContext.init]
    (cuml.dask.common.comms).  It enrolls exactly the given workers in a
    new group, and fails with [CommsInitError] if a worker is unreachable
    or already enrolled in another session. *)
Definition comms_init (comms : CommsContext) (ws : gset worker) : M () :=
  c ← get_cluster;
  if comms_ready c ws
  then modify_cluster (λ c,
         log (EvCommsInit (sessionId comms) ws)
           (set_sessions (<[sessionId comms := ws]> (sessions c)) c))
  else raise CommsInitError.

(** Modelled from the spec: [CommsContext.destroy] tears the group down. *)
Definition comms_destroy (comms : CommsContext) : M () :=
  modify_cluster (λ c,
    log (EvCommsDestroy (sessionId comms))
      (set_sessions (delete (sessionId comms) (sessions c)) c)).

(** ** Scheduler *)

(** [client.submit(f, *args, workers=ws, pure=False)] returns a future. *)
Definition submit (args : FitArgs) (ws : list worker) : M nat :=
  c ← get_cluster;
  modify_cluster (λ c, log (EvSubmit (next_key c) ws args)
                         (add_task (mkTask args ws) c));;
  mret (next_key c).

(** [wait(futures)] returns when all of them are done; tasks finish in
    the order the scheduler sees them, and those it did not list finish
    before the call returns all the same. *)
Definition wait (futures : list nat) : M () :=
  modify_cluster (λ c,
    foldl settle (log (EvWait futures) c) (arrival c futures ++ futures)).

(** [f.exception()] blocks until [f] is done. *)
Definition future_exception (k : nat) : M (option TaskExn) :=
  modify_cluster (λ c, log (EvInspect k) (settle c k));;
  c ← get_cluster;
  mret (match settled c !! k with
        | Some (Failed e) => Some e
        | _ => None
        end).

(** [f.result()] blocks until [f] is done and raises what the task
    raised. *)
Definition future_result (k : nat) : M LocalModel :=
  modify_cluster (λ c, log (EvInspect k) (settle c k));;
  c ← get_cluster;
  match settled c !! k with
  | Some (Done m) => mret m
  | Some (Failed e) => raise (FutureError e)
  | None => raise CancelledError
  end.

(** Modelled from the spec: [raise_exception_from_futures]
    (cuml.dask.common.utils).  It collects all failures, not just the
    first, and raises one [DistributedFitError] wrapping the per-worker
    causes. *)
Definition raise_exception_from_futures (futures : list nat) : M () :=
  errs ← mapM future_exception futures;
  match omap id errs with
  | [] => mret ()
  | causes => raise (DistributedFitError causes)
  end.

(** ** [KMeans.fit] *)

(** In [client.submit(f, ..., **self.kwargs, workers=[wf[0]], pure=False)]
    a key [workers] or [pure] of [self.kwargs] is a keyword given twice. *)
Definition duplicate_keyword (kw : Kwargs) : bool :=
  bool_decide ("workers" ∈ kw.*1) || bool_decide ("pure" ∈ kw.*1).

(** The [client.submit] call of [fit]: a keyword given twice is a
    [TypeError] of the call itself, raised before anything is submitted. *)
Definition submit_call (args : FitArgs) (ws : list worker) : M nat :=
  if duplicate_keyword (fa_kwargs args) then raise CallTypeError
  else submit args ws.

(** [kmeans_fit[0]] *)
Definition index0 (futures : list nat) : M nat :=
  match futures with
  | k :: _ => mret k
  | [] => raise IndexError
  end.

(** [kmeans_fit[0].result()]: the model comes from the first future of
    the list, which is in the order of [worker_to_parts.items()]. *)
Definition select_model (futures : list nat) : M LocalModel :=
  f0 ← index0 futures;
  future_result f0.

(** Reading an attribute that may not have been assigned yet. *)
Definition attr {A} (o : option A) : M A :=
  match o with
  | Some a => mret a
  | None => raise AttributeError
  end.

Definition set_datatype (d : Datatype) (s : KMeans) : KMeans :=
  mkKMeans (verbose s) (kwargs s) (Some d) (local_model s) (cluster_centers_ s).
Definition set_local_model (m : LocalModel) (s : KMeans) : KMeans :=
  mkKMeans (verbose s) (kwargs s) (self_datatype s) (Some m) (cluster_centers_ s).
Definition set_cluster_centers_ (cs : Centers) (s : KMeans) : KMeans :=
  mkKMeans (verbose s) (kwargs s) (self_datatype s) (local_model s) (Some cs).

(** The arguments of the [client.submit] call for one item [wf] of
    [data.worker_to_parts.items()]. *)
Definition fit_args (sid : nat) (dt : Datatype) (mult : bool) (kw : Kwargs)
    (wf : worker * list Obj) : FitArgs :=
  mkFitArgs sid wf.2 dt mult kw.

(** [inputs = X if sample_weight is None else (X, sample_weight)] *)
Definition fit_inputs (X : Coll) (sample_weight : option Coll) : Inputs :=
  match sample_weight with
  | None => InX X
  | Some W => InXW X W
  end.

Definition fit (X : Coll) (sample_weight : option Coll) : M () :=
  let inputs := fit_inputs X sample_weight in
  data ← lift_exn (DistributedDataHandler_create inputs);
  modify_self (set_datatype (datatype data));;
  comms ← CommsContext_new;
  comms_init comms (workers data);;
  s ← get_self;
  dt ← attr (self_datatype s);
  kmeans_fit ← mapM (λ wf,
      submit_call (fit_args (sessionId comms) dt (multiple data) (kwargs s) wf)
        [wf.1])
    (worker_to_parts data);
  wait kmeans_fit;;
  raise_exception_from_futures kmeans_fit;;
  comms_destroy comms;;
  m ← select_model kmeans_fit;
  modify_self (set_local_model m);;
  modify_self (set_cluster_centers_ (lm_cluster_centers_ m));;
  mret ().

(** ** The stages of a fit round as functions of the cluster *)

Definition submit_step (f : worker * list Obj → FitArgs) (c : Cluster)
    (wf : worker * list Obj) : Cluster :=
  log (EvSubmit (next_key c) [wf.1] (f wf)) (add_task (mkTask (f wf) [wf.1]) c).

Definition inspect_step (c : Cluster) (k : nat) : Cluster :=
  log (EvInspect k) (settle c k).

Definition failure (o : Outcome) : option TaskExn :=
  match o with
  | Failed e => Some e
  | Done _ => None
  end.

(** What [[f.exception() for f in futures]] reads, future by future. *)
Fixpoint exceptions (c : Cluster) (ks : list nat) : list (option TaskExn) :=
  match ks with
  | [] => []
  | k :: r =>
      (settled (inspect_step c k) !! k ≫= failure)
        :: exceptions (inspect_step c k) r
  end.

Section Round.
(** One fit round, started by estimator [s] on cluster [c] over the
    assignment [data]. *)
Variables (s : KMeans) (c : Cluster) (data : DistributedDataHandler).

Definition round_sid : nat := next_session c.

Definition round_keys : list nat :=
  seq (next_key c) (length (worker_to_parts data)).

Definition round_args (wf : worker * list Obj) : FitArgs :=
  fit_args round_sid (datatype data) (multiple data) (kwargs s) wf.

(** The cluster once the session is open. *)
Definition opened : Cluster :=
  log (EvCommsInit round_sid (workers data))
    (set_sessions (<[round_sid := workers data]> (sessions c))
       (fresh_session c)).

Definition submitted : Cluster :=
  foldl (submit_step round_args) opened (worker_to_parts data).

Definition waited : Cluster :=
  foldl settle (log (EvWait round_keys) submitted)
    (arrival c round_keys ++ round_keys).

Definition inspected : Cluster := foldl inspect_step waited round_keys.

Definition destroyed : Cluster :=
  log (EvCommsDestroy round_sid)
    (set_sessions (delete round_sid (sessions inspected)) inspected).

(** The first [client.submit] call of the round raises: there is an item
    to submit and a keyword is given twice. *)
Definition submit_raises : bool :=
  match worker_to_parts data with
  | [] => false
  | _ :: _ => duplicate_keyword (kwargs s)
  end.

(** What the task of each worker returns or raises once it runs, in
    assignment order. *)
Definition task_outcomes : list Outcome :=
  (λ wf, _func_fit opened wf.1 round_sid wf.2 (datatype data)
           (multiple data) (kwargs s)) <$> worker_to_parts data.

(** What each worker's task returns or raises, in assignment order; when
    the submit call raises there is no task. *)
Definition round_outcomes : list Outcome :=
  if submit_raises then [] else task_outcomes.

Definition round_submits : list Event :=
  imap (λ i wf, EvSubmit (next_key c + i) [wf.1] (round_args wf))
    (worker_to_parts data).
End Round.

(** What the log of a call gained over the log it started with. *)
Definition new_events (c : Cluster) (σ : World) : list Event :=
  drop (length (events c)) (events (cluster σ)).

Definition submit_of (e : Event) : option (nat * list worker * FitArgs) :=
  match e with
  | EvSubmit k ws a => Some (k, ws, a)
  | _ => None
  end.

Definition init_of (e : Event) : option (nat * gset worker) :=
  match e with
  | EvCommsInit sid ws => Some (sid, ws)
  | _ => None
  end.

(** What a fit round whose tasks were submitted leaves behind: the
    aggregated error and the cluster as inspected, or the model of the
    first task and the cluster with the session closed. *)
Definition run_round (s : KMeans) (c : Cluster)
    (data : DistributedDataHandler) : (Exn + ()) * World :=
  let s1 := set_datatype (datatype data) s in
  match omap failure (task_outcomes s c data) with
  | [] =>
      match task_outcomes s c data with
      | [] => (inl IndexError, mkWorld s1 (destroyed s c data))
      | Done m :: _ =>
          (inr (),
           mkWorld (set_cluster_centers_ (lm_cluster_centers_ m)
                      (set_local_model m s1))
             (log (EvInspect (next_key c)) (destroyed s c data)))
      | Failed e :: _ =>
          (inl (FutureError e),
           mkWorld s1 (log (EvInspect (next_key c)) (destroyed s c data)))
      end
  | causes => (inl (DistributedFitError causes), mkWorld s1 (inspected s c data))
  end.

(** What a fit round that got its session leaves behind: the [TypeError]
    of the submit call and the cluster with the session just opened, or
    what the round of its tasks leaves. *)
Definition round_result (s : KMeans) (c : Cluster)
    (data : DistributedDataHandler) : (Exn + ()) * World :=
  if submit_raises s data
  then (inl CallTypeError,
        mkWorld (set_datatype (datatype data) s) (opened c data))
  else run_round s c data.

(** The keys that finish while [foldl settle c l] runs, in that order. *)
Fixpoint settle_order (c : Cluster) (l : list nat) : list nat :=
  match l with
  | [] => []
  | k :: r =>
      match settled c !! k, tasks c !! k with
      | None, Some _ => k :: settle_order (settle c k) r
      | _, _ => settle_order (settle c k) r
      end
  end.

(** The order in which the tasks of a round finish at its barrier. *)
Definition round_order (s : KMeans) (c : Cluster)
    (data : DistributedDataHandler) : list nat :=
  settle_order (log (EvWait (round_keys c data)) (submitted s c data))
    (arrival c (round_keys c data) ++ round_keys c data).

(** The log of a round whose tasks were submitted, up to the inspection
    of the futures. *)
Definition run_log (s : KMeans) (c : Cluster)
    (data : DistributedDataHandler) : list Event :=
  EvCommsInit (round_sid c) (workers data)
    :: round_submits s c data
    ++ EvWait (round_keys c data)
    :: (EvSettled <$> round_order s c data)
    ++ (EvInspect <$> round_keys c data).

(** The log of a round up to the inspection of the futures; a round
    whose submit call raises has only opened its session. *)
Definition round_log (s : KMeans) (c : Cluster)
    (data : DistributedDataHandler) : list Event :=
  if submit_raises s data
  then [EvCommsInit (round_sid c) (workers data)]
  else run_log s c data.

(** What is logged after the inspection, by the way the call ends. *)
Definition round_tail (c : Cluster) (r : Exn + ()) : list Event :=
  match r with
  | inl (DistributedFitError _) => []
  | inl CallTypeError => []
  | inl IndexError => [EvCommsDestroy (round_sid c)]
  | _ => [EvCommsDestroy (round_sid c); EvInspect (next_key c)]
  end.

(** The futures a log creates, in order. *)
Definition submit_keys (tr : list Event) : list nat :=
  (λ x, x.1.1) <$> omap submit_of tr.

(** Future keys are handed out in increasing order: no future that is
    still to be created has a task or is done already. *)
Definition cluster_wf (c : Cluster) : Prop :=
  (∀ k t, tasks c !! k = Some t → k < next_key c) ∧
  (∀ k o, settled c !! k = Some o → k < next_key c).

(** The same cluster with another order of task completion. *)
Definition set_arrival (a : list nat → list nat) (c : Cluster) : Cluster :=
  mkCluster (events c) (next_key c) (next_session c) (sessions c)
    (unreachable c) (tasks c) (settled c) a (engine c).

(** How often session [sid] is closed in a log. *)
Definition is_destroy (sid : nat) (e : Event) : bool :=
  match e with
  | EvCommsDestroy s => bool_decide (s = sid)
  | _ => false
  end.

Definition closes (sid : nat) (tr : list Event) : nat :=
  length (filter (λ e, is_destroy sid e) tr).

(** The feature partition of a task input. *)
Definition obj_x (o : Obj) : Part :=
  match o with
  | OPart x => x
  | OPair x _ => x
  end.

(** The weight partition of a task input, when it has one. *)
Definition obj_w (o : Obj) : option Part :=
  match o with
  | OPart _ => None
  | OPair _ q => Some q
  end.

(** What the engine is handed as [sample_weight] on worker [w]: nothing,
    or the concatenation of the weight partitions that live on [w]. *)
Definition weights_on (w : worker) (sample_weight : option Coll)
  : option Block :=
  (λ W, concatenate (parts_on w (coll_parts W))) <$> sample_weight.

(** The partitions of a task input live on [w] in the collections
    passed to [fit]. *)
Definition owned (w : worker) (inputs : Inputs) (o : Obj) : Prop :=
  match inputs, o with
  | InX X, OPart x => (w, x) ∈ coll_parts X
  | InXW X W, OPair x q => (w, x) ∈ coll_parts X ∧ (w, q) ∈ coll_parts W
  | _, _ => False
  end.

(** Worker [w] holds at least one shard of the input. *)
Definition holds_shard (w : worker) (inputs : Inputs) : Prop :=
  match inputs with
  | InX X => ∃ p, (w, p) ∈ coll_parts X
  | InXW X W => ∃ p, (w, p) ∈ coll_parts X ∨ (w, p) ∈ coll_parts W
  end.

(** The feature collection of the input. *)
Definition inputs_X (inputs : Inputs) : Coll :=
  match inputs with
  | InX X => X
  | InXW X _ => X
  end.

(** ** [fit_predict] and [predict] *)

Section Inference.
Context {R : Type}.

(** [DelayedPredictionMixin._predict] (cuml.dask.common.base) is a
    parameter: any function of the input, the [delayed] flag and the
    world. *)
Variable _predict : Coll → bool → M R.

Definition predict (X : Coll) (delayed : bool) : M R :=
  _predict X delayed.

(** [return self.fit(X).predict(X, delayed=delayed)] *)
Definition fit_predict (X : Coll) (sample_weight : option Coll)
    (delayed : bool) : M R :=
  fit X None;; predict X delayed.
End Inference.

(** ** [fit_transform], [transform] and [get_param_names] *)

Section Transform.
Context {R : Type}.

(** [DelayedTransformMixin._transform] (cuml.dask.common.base) is a
    parameter: any function of the input, [n_dims], the [delayed] flag
    and the world. *)
Variable _transform : Coll → nat → bool → M R.

(** [return self._transform(X, n_dims=2, delayed=delayed)] *)
Definition transform (X : Coll) (delayed : bool) : M R :=
  _transform X 2 delayed.

(** [return self.fit(X).transform(X, delayed=delayed)] *)
Definition fit_transform (X : Coll) (delayed : bool) : M R :=
  fit X None;; transform X delayed.
End Transform.

(** [return list(self.kwargs.keys())] *)
Definition get_param_names (s : KMeans) : list string := (kwargs s).*1.

(** ** [score] *)

(** Modelled from the spec: the inertia of a set of rows is the sum of
    their squared distances to the nearest centroid.  Rows and centroids
    have integer coordinates here, so this is the exact value. *)
Definition sq_dist (x c : list Z) : Z :=
  foldr Z.add 0%Z (zip_with (λ a b, (a - b) * (a - b))%Z x c).

Definition nearest_sq (cs : Centers) (x : list Z) : Z :=
  match sq_dist x <$> cs with
  | [] => 0%Z
  | d :: ds => foldl Z.min d ds
  end.

Definition inertia (cs : Centers) (rows : list (list Z)) : Z :=
  foldr Z.add 0%Z (nearest_sq cs <$> rows).

(** The binary64 number nearest to an integer. *)
Definition float_of_Z (z : Z) : float :=
  SF2Prim (binary_normalize prec emax z 0 false).

(** No addition of the running sum of the integers [qs], started at
    [acc], rounds in binary64. *)
Fixpoint exact_sums (acc : Z) (qs : list Z) : Prop :=
  match qs with
  | [] => True
  | q :: qs =>
      (float_of_Z acc + float_of_Z q)%float = float_of_Z (acc + q) ∧
      exact_sums (acc + q) qs
  end.

(** Modelled from the spec: [cp.sum] (CuPy) is the global reduction over
    the partial results, taken as the running binary64 sum of the array
    from [0.0], in the order of the array. *)
Definition cp_sum (xs : list float) : float := foldl PrimFloat.add 0%float xs.

Section Score.
(** The rows a partition holds. *)
Variable rows_of : Part → list (list Z).

(** [model.score(data)] of the single-GPU estimator (cuml.cluster.KMeans)
    on one array is a parameter: any binary64 number. *)
Variable model_score : LocalModel → list (list Z) → float.

(** [ret = model.score(data); return ret] *)
Definition _score (model : LocalModel) (data : Part) : float :=
  model_score model (rows_of data).

(** Modelled from the spec: [_run_parallel_func] (cuml.dask.common.base)
    fans out one job per shard on the fitted model, and
    [client.compute(scores, sync=True)] gathers the results in the order
    of the shards.  An estimator that was never fitted has no model to
    hand to the jobs. *)
Definition _run_parallel_func (func : LocalModel → Part → float) (X : Coll)
  : M (list float) :=
  s ← get_self;
  model ← attr (local_model s);
  mret (func model <$> (coll_parts X).*2).

(** [return -1 * cp.sum(cp.asarray(...compute(scores, sync=True)) * -1.0)] *)
Definition score (X : Coll) : M float :=
  scores ← _run_parallel_func _score X;
  mret (-1 * cp_sum ((λ x, x * -1) <$> scores))%float.

(** The partial inertia a shard contributes: the single-GPU score of the
    shard with its sign flipped. *)
Definition partial_inertia (model : LocalModel) (data : Part) : float :=
  (- _score model data)%float.
End Score.

(** The estimator after the three assignments of a successful [fit]. *)
Definition fitted (d : Datatype) (m : LocalModel) (s : KMeans) : KMeans :=
  set_cluster_centers_ (lm_cluster_centers_ m)
    (set_local_model m (set_datatype d s)).

(** The rows of a list of partitions. *)
Definition total_rows (ps : list Part) : nat := sum_list (part_rows <$> ps).

(** ** A small cluster to run the methods on *)

(** An engine that fails on the workers in [bad] and returns, elsewhere,
    a model that remembers where it was fitted. *)
Definition demo_engine (bad : list worker)
  : Handle → Datatype → Kwargs → Block → option Block → Outcome :=
  λ h _ _ b _,
    if bool_decide (h_worker h ∈ bad)
    then Failed (EngineError (h_worker h))
    else Done (mkLocalModel (h_worker h) [[Z.of_nat (block_rows b)]]).

Definition demo_cluster (bad : list worker) : Cluster :=
  mkCluster [] 0 0 ∅ ∅ ∅ ∅ reverse (demo_engine bad).

Definition demo_kmeans : KMeans :=
  mkKMeans false [("n_clusters", 2%Z)] None None None.

(** An estimator built with a hyperparameter named [workers]. *)
Definition demo_kmeans_workers : KMeans :=
  mkKMeans false [("n_clusters", 2%Z); ("workers", 3%Z)] None None None.

Definition demo_X : Coll :=
  mkColl Cupy [("w0", mkPart 0 10); ("w1", mkPart 1 20); ("w0", mkPart 2 5)].

Definition demo_W : Coll :=
  mkColl Cupy [("w0", mkPart 3 10); ("w0", mkPart 4 5); ("w1", mkPart 5 20)].

(** What [create] makes of [demo_X] alone. *)
Definition demo_data : DistributedDataHandler :=
  mk_handler (prod_map id OPart <$> coll_parts demo_X) Cupy false.

(** Weights whose second partition on [w0] has 6 rows instead of 5. *)
Definition demo_W_bad : Coll :=
  mkColl Cupy [("w0", mkPart 3 10); ("w0", mkPart 4 6); ("w1", mkPart 5 20)].

(** A collection without partitions. *)
Definition demo_empty : Coll := mkColl Cudf [].

(** The demo cluster with worker [w1] out of reach. *)
Definition demo_cluster_down : Cluster :=
  mkCluster [] 0 0 ∅ {["w1"]} ∅ ∅ reverse (demo_engine []).

(** What [create] makes of [demo_X] with the weights [demo_W]. *)
Definition demo_data_weighted : DistributedDataHandler :=
  mk_handler (pair_parts (coll_parts demo_X) (coll_parts demo_W)) Cupy true.

(** A single-GPU score that adds the squared distances of the rows up one
    after the other and returns minus the inertia it arrives at. *)
Definition demo_score (m : LocalModel) (rows : list (list Z)) : float :=
  (- foldl (λ acc x, acc + float_of_Z (nearest_sq (lm_cluster_centers_ m) x))
       0 rows)%float.

(** Seven rows in three shards: one far from the origin, six near it. *)
Definition demo_rows (p : Part) : list (list Z) :=
  match part_key p with
  | 0 => [[134217728; 0]]%Z
  | _ => [[1; 1]; [1; 1]; [1; 1]]%Z
  end.

Definition demo_score_X : Coll :=
  mkColl Cupy [("w0", mkPart 0 1); ("w1", mkPart 1 3); ("w0", mkPart 2 3)].

(** The six rows near the origin alone, in two shards. *)
Definition demo_score_near : Coll :=
  mkColl Cupy [("w1", mkPart 1 3); ("w0", mkPart 2 3)].

(** A model with the origin as its only centroid, and its estimator. *)
Definition demo_model : LocalModel := mkLocalModel "w0" [[0; 0]]%Z.

Definition demo_fitted : KMeans :=
  mkKMeans false [("n_clusters", 1%Z)] (Some Cupy) (Some demo_model)
    (Some [[0; 0]]%Z).
(** ** Running the monad *)

Lemma run_bind {A B} (m : M A) (f : A → M B) σ :
  (m ≫= f) σ = match m σ with
               | (inr a, σ') => f a σ'
               | (inl e, σ') => (inl e, σ')
               end.
Proof. reflexivity. Qed.

Lemma run_ret {A} (a : A) σ : (mret a : M A) σ = (inr a, σ).
Proof. reflexivity. Qed.

Lemma run_mapM_cons {A B} (f : A → M B) x l σ :
  mapM f (x :: l) σ =
  match f x σ with
  | (inr y, σ1) => match mapM f l σ1 with
                   | (inr k, σ2) => (inr (y :: k), σ2)
                   | (inl e, σ2) => (inl e, σ2)
                   end
  | (inl e, σ1) => (inl e, σ1)
  end.
Proof.
  cbn [mapM]. rewrite run_bind. destruct (f x σ) as [[e|y] σ1]; [done|].
  rewrite run_bind. by destruct (mapM f l σ1) as [[e|k] σ2].
Qed.

(** What each primitive does to the world. *)
Lemma run_submit args ws s c :
  submit args ws (mkWorld s c) =
  (inr (next_key c),
   mkWorld s (log (EvSubmit (next_key c) ws args) (add_task (mkTask args ws) c))).
Proof. reflexivity. Qed.

Lemma run_wait ks s c :
  wait ks (mkWorld s c) =
  (inr (), mkWorld s (foldl settle (log (EvWait ks) c) (arrival c ks ++ ks))).
Proof. reflexivity. Qed.

Lemma run_future_exception k s c :
  future_exception k (mkWorld s c) =
  (inr (settled (inspect_step c k) !! k ≫= failure),
   mkWorld s (inspect_step c k)).
Proof.
  unfold future_exception, inspect_step, mbind, M_bind, mret, M_ret; cbn.
  by destruct (settled (settle c k) !! k) as [[]|].
Qed.

Lemma run_future_result k s c :
  future_result k (mkWorld s c) =
  (match settled (inspect_step c k) !! k with
   | Some (Done m) => inr m
   | Some (Failed e) => inl (FutureError e)
   | None => inl CancelledError
   end, mkWorld s (inspect_step c k)).
Proof.
  unfold future_result, inspect_step, mbind, M_bind, mret, M_ret; cbn.
  by destruct (settled (settle c k) !! k) as [[]|].
Qed.

Lemma run_comms_new s c :
  CommsContext_new (mkWorld s c) =
  (inr (mkComms (next_session c)), mkWorld s (fresh_session c)).
Proof. reflexivity. Qed.

Lemma run_comms_init comms ws s c :
  comms_init comms ws (mkWorld s c) =
  if comms_ready c ws
  then (inr (), mkWorld s (log (EvCommsInit (sessionId comms) ws)
                            (set_sessions (<[sessionId comms := ws]> (sessions c)) c)))
  else (inl CommsInitError, mkWorld s c).
Proof.
  unfold comms_init. rewrite run_bind. cbn. by destruct (comms_ready c ws).
Qed.

Lemma run_comms_destroy comms s c :
  comms_destroy comms (mkWorld s c) =
  (inr (), mkWorld s (log (EvCommsDestroy (sessionId comms))
                        (set_sessions (delete (sessionId comms) (sessions c)) c))).
Proof. reflexivity. Qed.

Lemma run_modify_self f s c :
  modify_self f (mkWorld s c) = (inr (), mkWorld (f s) c).
Proof. reflexivity. Qed.

Lemma run_get_self s c : get_self (mkWorld s c) = (inr s, mkWorld s c).
Proof. reflexivity. Qed.

Lemma mapM_submit f l s c :
  mapM (λ wf, submit (f wf) [wf.1]) l (mkWorld s c) =
  (inr (seq (next_key c) (length l)), mkWorld s (foldl (submit_step f) c l)).
Proof.
  revert c. induction l as [|wf l IH]; intros c; [done|].
  rewrite run_mapM_cons, run_submit. by rewrite IH.
Qed.

Lemma mapM_submit_call_ok (f : worker * list Obj → FitArgs) l σ :
  (∀ wf, duplicate_keyword (fa_kwargs (f wf)) = false) →
  mapM (λ wf, submit_call (f wf) [wf.1]) l σ =
  mapM (λ wf, submit (f wf) [wf.1]) l σ.
Proof.
  intros Hf. revert σ. induction l as [|wf l IH]; intros σ; [done|].
  rewrite !run_mapM_cons. unfold submit_call at 1. rewrite Hf.
  destruct (submit (f wf) [wf.1] σ) as [[e|k] σ1]; [done|]. by rewrite IH.
Qed.

Lemma mapM_submit_call_raises (f : worker * list Obj → FitArgs) wf l σ :
  duplicate_keyword (fa_kwargs (f wf)) = true →
  mapM (λ wf, submit_call (f wf) [wf.1]) (wf :: l) σ = (inl CallTypeError, σ).
Proof.
  intros Hf. rewrite run_mapM_cons. unfold submit_call at 1. by rewrite Hf.
Qed.

Lemma mapM_future_exception ks s c :
  mapM future_exception ks (mkWorld s c) =
  (inr (exceptions c ks), mkWorld s (foldl inspect_step c ks)).
Proof.
  revert c. induction ks as [|k ks IH]; intros c; [done|].
  rewrite run_mapM_cons, run_future_exception. by rewrite IH.
Qed.

(** ** Partition assigner *)

Lemma assoc_None w m : assoc w m = None ↔ w ∉ m.*1.
Proof.
  induction m as [|[w' os] m IH]; cbn.
  - split; [intros _; apply not_elem_of_nil|done].
  - case_decide as Hw; subst.
    + split; [done|]. intros []. left.
    + rewrite IH, not_elem_of_cons. cbn. intuition congruence.
Qed.

Lemma assoc_elem w os m :
  NoDup m.*1 → (w, os) ∈ m ↔ assoc w m = Some os.
Proof.
  induction m as [|[w' os'] m IH]; cbn; intros Hnd.
  - split; [by intros ?%elem_of_nil|done].
  - apply NoDup_cons in Hnd as [Hw' Hnd]. rewrite elem_of_cons, (IH Hnd).
    case_decide as Hw; subst.
    + split; [intros [?|Ha]; [by simplify_eq|]|intros; left; by simplify_eq].
      apply assoc_None in Hw'. congruence.
    + split; [intros [?|?]; [by simplify_eq|done]|by right].
Qed.

Lemma assoc_add_part w o m w' :
  assoc w' (add_part w o m) =
  if decide (w' = w) then Some (default [] (assoc w m) ++ [o])
  else assoc w' m.
Proof.
  induction m as [|[v os] m IH]; cbn.
  - repeat case_decide; by simplify_eq.
  - destruct (decide (v = w)) as [->|Hv]; cbn.
    + repeat case_decide; by simplify_eq.
    + rewrite IH. repeat case_decide; by simplify_eq.
Qed.

Lemma keys_add_part w o m :
  (add_part w o m).*1 = if decide (w ∈ m.*1) then m.*1 else m.*1 ++ [w].
Proof.
  induction m as [|[v os] m IH]; cbn.
  - by rewrite decide_False by apply not_elem_of_nil.
  - destruct (decide (v = w)) as [->|Hv]; cbn.
    + by rewrite decide_True by left.
    + rewrite IH. destruct (decide (w ∈ m.*1)) as [Hin|Hin].
      * by rewrite decide_True by by right.
      * rewrite decide_False; [done|]. rewrite not_elem_of_cons.
        split; [congruence|done].
Qed.

Lemma objs_on_snoc w fs f :
  objs_on w (fs ++ [f]) =
  objs_on w fs ++ if decide (f.1 = w) then [f.2] else [].
Proof.
  unfold objs_on. rewrite filter_app, fmap_app. f_equal.
  rewrite filter_cons, filter_nil. by case_decide.
Qed.

Lemma objs_on_None w fs : w ∉ fs.*1 → objs_on w fs = [].
Proof.
  unfold objs_on. induction fs as [|[v o] fs IH]; [done|].
  rewrite fmap_cons, not_elem_of_cons. intros [Hv Hin].
  rewrite filter_cons. cbn [fst]. rewrite decide_False by done. by apply IH.
Qed.

(** Grouping keeps, for every worker that holds an object, exactly the
    objects that live on it, and lists no worker twice. *)
Lemma foldl_add_part fs2 : ∀ fs1 m,
  NoDup m.*1 →
  (∀ w, assoc w m = if decide (w ∈ fs1.*1) then Some (objs_on w fs1) else None) →
  let r := foldl (λ m f, add_part f.1 f.2 m) m fs2 in
  NoDup r.*1 ∧
  ∀ w, assoc w r =
       if decide (w ∈ (fs1 ++ fs2).*1) then Some (objs_on w (fs1 ++ fs2))
       else None.
Proof.
  induction fs2 as [|[v o] fs2 IH]; intros fs1 m Hnd Hm; cbn.
  { by rewrite app_nil_r. }
  replace (fs1 ++ (v, o) :: fs2) with ((fs1 ++ [(v, o)]) ++ fs2)
    by by rewrite <- app_assoc.
  apply IH.
  - rewrite keys_add_part. case_decide as Hin; [done|].
    apply NoDup_app. split_and!; [done| |apply NoDup_singleton].
    intros x Hx ->%list_elem_of_singleton. done.
  - intros w. rewrite assoc_add_part, fmap_app, objs_on_snoc. cbn.
    destruct (decide (w = v)) as [->|Hw].
    + rewrite decide_True by (apply elem_of_app; right; left).
      rewrite decide_True by done. rewrite Hm.
      case_decide as Hin; cbn; [done|]. by rewrite objs_on_None.
    + rewrite (decide_False (P:=v = w)) by congruence. rewrite app_nil_r, Hm.
      destruct (decide (w ∈ fs1.*1)) as [Hin|Hin].
      * by rewrite decide_True by (apply elem_of_app; by left).
      * rewrite decide_False; [done|].
        intros [?|?%list_elem_of_singleton]%elem_of_app; done.
Qed.

Lemma workers_to_parts_spec fs :
  NoDup (workers_to_parts fs).*1 ∧
  ∀ w os, (w, os) ∈ workers_to_parts fs ↔ w ∈ fs.*1 ∧ os = objs_on w fs.
Proof.
  destruct (foldl_add_part fs [] []) as [Hnd Hassoc]; cbn.
  { apply NoDup_nil_2. }
  { intros w. by rewrite decide_False by apply not_elem_of_nil. }
  split; [done|]. intros w os. unfold workers_to_parts.
  rewrite (assoc_elem _ _ _ Hnd), Hassoc. cbn.
  case_decide; (split; [intros [= <-]|intros [? ->]]); done.
Qed.

Lemma rows_on_cons w v p ps :
  rows_on w ((v, p) :: ps) =
  if decide (v = w) then part_rows p :: rows_on w ps else rows_on w ps.
Proof.
  unfold rows_on, parts_on. rewrite filter_cons. cbn [fst].
  by case_decide.
Qed.

Lemma rows_on_nil w ps : w ∉ ps.*1 → rows_on w ps = [].
Proof.
  induction ps as [|[v p] ps IH]; [done|].
  rewrite fmap_cons, not_elem_of_cons, rows_on_cons. intros [Hv Hin].
  rewrite decide_False by done. by apply IH.
Qed.

Lemma rows_on_elem w ps : w ∈ ps.*1 → rows_on w ps ≠ [].
Proof.
  induction ps as [|[v p] ps IH]; [by intros ?%elem_of_nil|].
  rewrite fmap_cons, elem_of_cons, rows_on_cons. cbn.
  case_decide; [done|]. intros [?|?]; [congruence|by apply IH].
Qed.

Lemma alignedb_spec X W : alignedb X W = true ↔ aligned X W.
Proof.
  unfold alignedb, aligned. rewrite forallb_forall. split.
  - intros H w. destruct (decide (w ∈ X.*1 ++ W.*1)) as [Hin|Hin].
    + eapply bool_decide_eq_true_1, H. by apply list_elem_of_In.
    + rewrite elem_of_app in Hin.
      rewrite !rows_on_nil; [done|tauto..].
  - intros H w _. by apply bool_decide_eq_true_2.
Qed.

(** Aligned collections live on the same workers. *)
Lemma aligned_workers X W w : aligned X W → w ∈ W.*1 → w ∈ X.*1.
Proof.
  intros Ha Hw. destruct (decide (w ∈ X.*1)) as [|Hn]; [done|].
  apply rows_on_elem in Hw. apply rows_on_nil in Hn.
  rewrite <- (Ha w), Hn in Hw. done.
Qed.

Lemma take_on_Some w W q R :
  take_on w W = Some (q, R) →
  (w, q) ∈ W ∧ (∀ f, f ∈ R → f ∈ W) ∧
  ∀ v, rows_on v W =
       if decide (v = w) then part_rows q :: rows_on v R else rows_on v R.
Proof.
  revert q R. induction W as [|[v p] W IH]; intros q R; cbn [take_on]; [done|].
  case_decide as Hv.
  - intros [= -> ->]. subst. split_and!; [left|by right|].
    intros u. rewrite rows_on_cons. repeat case_decide; by simplify_eq.
  - destruct (take_on w W) as [[q' R']|] eqn:Ht; [|done].
    intros [= -> <-]. destruct (IH _ _ eq_refl) as (Hq&Hsub&Hrows).
    split_and!; [by right| |].
    + intros f [->|Hf]%elem_of_cons; [left|right; by apply Hsub].
    + intros u. rewrite !rows_on_cons, Hrows.
      repeat case_decide; by simplify_eq.
Qed.

Lemma take_on_None w W : take_on w W = None → w ∉ W.*1.
Proof.
  induction W as [|[v p] W IH]; cbn; [intros _; apply not_elem_of_nil|].
  case_decide; [done|]. destruct (take_on w W) as [[]|]; [done|].
  intros _. rewrite not_elem_of_cons. split; [congruence|by apply IH].
Qed.

Lemma pair_parts_workers X W : (pair_parts X W).*1 = X.*1.
Proof.
  revert W. induction X as [|[w x] X IH]; intros W; cbn; [done|].
  destruct (take_on w W) as [[q R]|]; cbn; by rewrite IH.
Qed.

Lemma pair_parts_features X W w :
  obj_x <$> objs_on w (pair_parts X W) = parts_on w X.
Proof.
  unfold objs_on, parts_on.
  revert W. induction X as [|[v x] X IH]; intros W; cbn; [done|].
  destruct (take_on v W) as [[q R]|]; rewrite !filter_cons; cbn [fst];
    case_decide; cbn; by rewrite IH.
Qed.

(** With aligned weights every feature partition gets a weight partition
    of its own worker. *)
Lemma pair_parts_owned X W w o :
  aligned (coll_parts X) (coll_parts W) →
  (w, o) ∈ pair_parts (coll_parts X) (coll_parts W) →
  owned w (InXW X W) o.
Proof.
  destruct X as [tx X], W as [tw W]. cbn.
  assert (∀ X0 W0, aligned X0 W0 → (w, o) ∈ pair_parts X0 W0 →
    match o with
    | OPair x q => (w, x) ∈ X0 ∧ (w, q) ∈ W0
    | OPart _ => False
    end) as Hgen; [|apply Hgen].
  clear. induction X0 as [|[v x] X0 IH]; intros W0 Ha; cbn.
  { by intros ?%elem_of_nil. }
  destruct (take_on v W0) as [[q R]|] eqn:Ht.
  - destruct (take_on_Some _ _ _ _ Ht) as (Hq&Hsub&Hrows).
    assert (aligned X0 R) as HaR.
    { intros u. specialize (Ha u). rewrite rows_on_cons, Hrows in Ha.
      repeat case_decide; by simplify_eq. }
    intros [[= -> ->]|Hin]%elem_of_cons.
    + split; [left|done].
    + specialize (IH R HaR Hin). destruct o as [|x' q']; [done|].
      destruct IH as [Hx Hq']. split; [by right|by apply Hsub].
  - apply take_on_None, rows_on_nil in Ht.
    specialize (Ha v). rewrite rows_on_cons, decide_True, Ht in Ha by done.
    done.
Qed.

Lemma single_parts_owned X w o :
  (w, o) ∈ prod_map id OPart <$> coll_parts X → owned w (InX X) o.
Proof.
  intros ([v p]&[= -> ->]&Hin)%list_elem_of_fmap. done.
Qed.

Lemma single_parts_features ps w :
  obj_x <$> objs_on w (prod_map id OPart <$> ps) = parts_on w ps.
Proof.
  unfold objs_on, parts_on. induction ps as [|[v p] ps IH]; [done|].
  rewrite fmap_cons, !filter_cons. cbn [fst prod_map id].
  case_decide; cbn; by rewrite IH.
Qed.

Lemma elem_of_objs_on w o fs : o ∈ objs_on w fs ↔ (w, o) ∈ fs.
Proof.
  unfold objs_on. rewrite list_elem_of_fmap. split.
  - intros ([v o']&->&[Hv Hin]%list_elem_of_filter). cbn in *. by subst.
  - intros Hin. exists (w, o). split; [done|]. by apply list_elem_of_filter.
Qed.

Lemma parts_on_cons w v p ps :
  parts_on w ((v, p) :: ps) =
  if decide (v = w) then p :: parts_on w ps else parts_on w ps.
Proof.
  unfold parts_on. rewrite filter_cons. cbn [fst]. by case_decide.
Qed.

Lemma objs_on_cons w v o fs :
  objs_on w ((v, o) :: fs) =
  if decide (v = w) then o :: objs_on w fs else objs_on w fs.
Proof.
  unfold objs_on. rewrite filter_cons. cbn [fst]. by case_decide.
Qed.

Lemma take_on_parts w W q R v :
  take_on w W = Some (q, R) →
  parts_on v W = if decide (v = w) then q :: parts_on v R else parts_on v R.
Proof.
  revert q R. induction W as [|[u p] W IH]; intros q R; cbn [take_on]; [done|].
  destruct (decide (u = w)) as [->|Hu].
  - intros [= -> ->]. rewrite parts_on_cons.
    repeat case_decide; by simplify_eq.
  - destruct (take_on w W) as [[q' R']|] eqn:Ht; [|done].
    intros [= -> <-]. rewrite !parts_on_cons, (IH _ _ eq_refl).
    repeat case_decide; by simplify_eq.
Qed.

Lemma parts_on_rows_nil w ps : rows_on w ps = [] → parts_on w ps = [].
Proof. unfold rows_on. by intros ?%fmap_nil_inv. Qed.

(** Without weights a task gets the feature partitions of its worker. *)
Lemma all_parts_single ps w :
  all_parts (objs_on w (prod_map id OPart <$> ps)) = Some (parts_on w ps).
Proof.
  induction ps as [|[v p] ps IH]; [done|].
  rewrite fmap_cons. cbn [prod_map id fst snd].
  rewrite objs_on_cons, parts_on_cons. case_decide; [|done].
  cbn. by rewrite IH.
Qed.

(** With aligned weights a task gets the feature partitions of its
    worker and, one for one, the weight partitions of its worker. *)
Lemma all_pairs_aligned X W w :
  aligned X W →
  all_pairs (objs_on w (pair_parts X W)) = Some (parts_on w X, parts_on w W).
Proof.
  revert W. induction X as [|[v x] X IH]; intros W Ha.
  - cbn. specialize (Ha w). symmetry in Ha.
    by rewrite (parts_on_rows_nil _ _ Ha).
  - cbn [pair_parts]. destruct (take_on v W) as [[q R]|] eqn:Ht.
    + destruct (take_on_Some _ _ _ _ Ht) as (_&_&Hrows).
      assert (aligned X R) as HaR.
      { intros u. specialize (Ha u). rewrite rows_on_cons, Hrows in Ha.
        repeat case_decide; by simplify_eq. }
      rewrite objs_on_cons, parts_on_cons, (take_on_parts _ _ _ _ w Ht).
      repeat case_decide; simplify_eq; [|by apply IH].
      cbn. by rewrite (IH R HaR).
    + apply take_on_None, rows_on_nil in Ht.
      specialize (Ha v). rewrite rows_on_cons, decide_True, Ht in Ha by done.
      done.
Qed.

Lemma inputs_X_fit_inputs X sw : inputs_X (fit_inputs X sw) = X.
Proof. by destruct sw. Qed.

(** What [create] hands to [fit], in terms of the collections. *)
Lemma create_spec inputs data :
  DistributedDataHandler_create inputs = inr data →
  datatype data = coll_type (inputs_X inputs) ∧
  workers data = list_to_set (coll_parts (inputs_X inputs)).*1 ∧
  worker_to_parts data = workers_to_parts (gpu_futures data) ∧
  (gpu_futures data).*1 = (coll_parts (inputs_X inputs)).*1 ∧
  (∀ w o, (w, o) ∈ gpu_futures data → owned w inputs o) ∧
  (∀ w, obj_x <$> objs_on w (gpu_futures data)
        = parts_on w (coll_parts (inputs_X inputs))) ∧
  (∀ w, w ∈ workers data ↔ holds_shard w inputs).
Proof.
  destruct inputs as [X|X W]; cbn.
  - intros [= <-]. cbn.
    assert ((prod_map id OPart <$> coll_parts X).*1 = (coll_parts X).*1) as Hk.
    { rewrite <- list_fmap_compose. apply list_fmap_ext. by intros ? []. }
    rewrite Hk. split_and!; try done.
    + intros w o. apply single_parts_owned.
    + intros w. apply single_parts_features.
    + intros w. rewrite elem_of_list_to_set, list_elem_of_fmap. split.
      * intros ([v p]&->&Hin). by exists p.
      * intros [p Hin]. by exists (w, p).
  - destruct (alignedb _ _) eqn:Hal; [|done]. apply alignedb_spec in Hal.
    intros [= <-]. cbn. rewrite pair_parts_workers. split_and!; try done.
    + intros w o. by apply pair_parts_owned.
    + intros w. apply pair_parts_features.
    + intros w. rewrite elem_of_list_to_set. split.
      * intros ([v p]&->&Hin)%list_elem_of_fmap. exists p. by left.
      * intros [p [Hin|Hin]].
        -- apply list_elem_of_fmap. by exists (w, p).
        -- apply (aligned_workers _ _ _ Hal), list_elem_of_fmap.
           by exists (w, p).
Qed.

(** ** Finishing tasks *)

Lemma _func_fit_ext c c' w sid objs dt hw kw :
  sessions c = sessions c' → engine c = engine c' →
  _func_fit c w sid objs dt hw kw = _func_fit c' w sid objs dt hw kw.
Proof.
  intros Hs He. unfold _func_fit, worker_state. by rewrite Hs, He.
Qed.

Lemma run_task_ext c c' t :
  sessions c = sessions c' → engine c = engine c' →
  run_task c t = run_task c' t.
Proof. intros. unfold run_task. by apply _func_fit_ext. Qed.

Lemma settle_frame c k :
  tasks (settle c k) = tasks c ∧ sessions (settle c k) = sessions c ∧
  engine (settle c k) = engine c ∧ next_key (settle c k) = next_key c ∧
  next_session (settle c k) = next_session c.
Proof.
  unfold settle. by destruct (settled c !! k), (tasks c !! k).
Qed.

Lemma settled_settle c k j :
  settled (settle c k) !! j =
  match settled c !! j with
  | Some o => Some o
  | None => if decide (j = k) then run_task c <$> tasks c !! k else None
  end.
Proof.
  unfold settle. destruct (decide (j = k)) as [->|Hne].
  - destruct (settled c !! k) as [o|] eqn:Hk; [done|].
    destruct (tasks c !! k) as [t|] eqn:Ht; cbn; [|by rewrite Hk].
    by rewrite lookup_insert_eq.
  - destruct (settled c !! k) as [o|], (tasks c !! k) as [t|]; cbn;
      rewrite ?lookup_insert_ne by done; by destruct (settled c !! j).
Qed.

Lemma settle_done c k :
  is_Some (settled c !! k) → settle c k = c.
Proof. intros [o Ho]. unfold settle. by rewrite Ho. Qed.

Lemma foldl_settle_frame l c :
  tasks (foldl settle c l) = tasks c ∧
  sessions (foldl settle c l) = sessions c ∧
  engine (foldl settle c l) = engine c ∧
  next_key (foldl settle c l) = next_key c ∧
  next_session (foldl settle c l) = next_session c.
Proof.
  revert c. induction l as [|k l IH]; intros c; [done|]. cbn.
  destruct (IH (settle c k)) as (->&->&->&->&->). apply settle_frame.
Qed.

(** After the barrier every listed task is done, with the outcome of its
    own run; what was done before stays as it was. *)
Lemma settled_foldl_settle l c j :
  settled (foldl settle c l) !! j =
  match settled c !! j with
  | Some o => Some o
  | None => if decide (j ∈ l) then run_task c <$> tasks c !! j else None
  end.
Proof.
  revert c. induction l as [|k l IH]; intros c; cbn.
  { destruct (settled c !! j); [done|]. by rewrite decide_False by set_solver. }
  rewrite IH, settled_settle.
  destruct (settle_frame c k) as (Ht&Hs&He&_).
  destruct (settled c !! j) as [o|] eqn:Hj; [done|].
  destruct (decide (j = k)) as [->|Hne].
  - rewrite (decide_True _ _ (list_elem_of_here k l)).
    destruct (tasks c !! k) as [t|] eqn:Htk; cbn; [done|].
    rewrite Ht, Htk. by case_decide.
  - rewrite Ht. destruct (decide (j ∈ l)) as [Hin|Hin].
    + rewrite decide_True by by right.
      destruct (tasks c !! j); cbn; [|done]. f_equal. by apply run_task_ext.
    + rewrite decide_False; [done|]. by intros [?|?]%elem_of_cons.
Qed.

Lemma events_settle c k :
  events (settle c k) =
  events c ++ match settled c !! k, tasks c !! k with
              | None, Some _ => [EvSettled k]
              | _, _ => []
              end.
Proof.
  unfold settle. destruct (settled c !! k), (tasks c !! k); cbn;
    by rewrite ?app_nil_r.
Qed.

Lemma events_foldl_settle l c :
  events (foldl settle c l) = events c ++ (EvSettled <$> settle_order c l).
Proof.
  revert c. induction l as [|k l IH]; intros c; cbn; [by rewrite app_nil_r|].
  rewrite IH, events_settle.
  destruct (settled c !! k), (tasks c !! k); cbn;
    by rewrite <- ?app_assoc, ?app_nil_r.
Qed.

(** Every pending task of the list is in the completion order. *)
Lemma settle_order_elem l c k t :
  k ∈ l → settled c !! k = None → tasks c !! k = Some t →
  k ∈ settle_order c l.
Proof.
  revert c. induction l as [|j l IH]; intros c Hin Hs Ht.
  { by apply elem_of_nil in Hin. }
  cbn. destruct (decide (k = j)) as [->|Hne].
  - rewrite Hs, Ht. left.
  - apply elem_of_cons in Hin as [?|Hin]; [done|].
    assert (k ∈ settle_order (settle c j) l) as Hk.
    { apply (IH _ Hin).
      - rewrite settled_settle, Hs. by rewrite decide_False.
      - by rewrite (proj1 (settle_frame c j)). }
    destruct (settled c !! j), (tasks c !! j); try done. by right.
Qed.

(** ** Submitting tasks *)

Lemma foldl_submit_frame f l c :
  settled (foldl (submit_step f) c l) = settled c ∧
  sessions (foldl (submit_step f) c l) = sessions c ∧
  engine (foldl (submit_step f) c l) = engine c ∧
  next_session (foldl (submit_step f) c l) = next_session c ∧
  next_key (foldl (submit_step f) c l) = next_key c + length l.
Proof.
  revert c. induction l as [|wf l IH]; intros c; cbn.
  { repeat split; lia. }
  destruct (IH (submit_step f c wf)) as (->&->&->&->&->). cbn.
  repeat split; lia.
Qed.

Lemma events_foldl_submit f l c :
  events (foldl (submit_step f) c l) =
  events c ++ imap (λ i wf, EvSubmit (next_key c + i) [wf.1] (f wf)) l.
Proof.
  revert c. induction l as [|wf l IH]; intros c; cbn; [by rewrite app_nil_r|].
  rewrite IH. cbn. rewrite <- app_assoc. cbn.
  rewrite Nat.add_0_r. do 2 f_equal.
  apply imap_ext. intros i x _. cbn. f_equal. lia.
Qed.

Lemma tasks_foldl_submit f l c i wf :
  l !! i = Some wf →
  tasks (foldl (submit_step f) c l) !! (next_key c + i) =
  Some (mkTask (f wf) [wf.1]).
Proof.
  assert (∀ l c k, k < next_key c →
    tasks (foldl (submit_step f) c l) !! k = tasks c !! k) as Hold.
  { clear. induction l as [|wf l IH]; intros c k Hk; [done|]. cbn.
    rewrite IH by (cbn; lia). cbn. apply lookup_insert_ne. lia. }
  revert c i. induction l as [|wf' l IH]; intros c i Hi; [done|].
  destruct i as [|i]; cbn in *.
  - simplify_eq. rewrite Hold by (cbn; lia). cbn.
    rewrite Nat.add_0_r. apply lookup_insert_eq.
  - rewrite <- (IH (submit_step f c wf') i Hi). cbn. f_equal. lia.
Qed.

Lemma arrival_foldl_submit f l c :
  arrival (foldl (submit_step f) c l) = arrival c.
Proof.
  revert c. induction l as [|wf l IH]; intros c; [done|]. cbn. by rewrite IH.
Qed.

(** ** Inspecting futures that are done *)

Lemma inspect_step_done c k :
  is_Some (settled c !! k) → inspect_step c k = log (EvInspect k) c.
Proof. intros H. unfold inspect_step. by rewrite settle_done. Qed.

Lemma foldl_inspect_done ks c :
  (∀ k, k ∈ ks → is_Some (settled c !! k)) →
  foldl inspect_step c ks = foldl (λ c k, log (EvInspect k) c) c ks ∧
  exceptions c ks = (λ k, settled c !! k ≫= failure) <$> ks.
Proof.
  revert c. induction ks as [|k ks IH]; intros c Hall; [done|]. cbn.
  rewrite inspect_step_done by (apply Hall; left).
  destruct (IH (log (EvInspect k) c)) as [-> ->].
  { intros j Hj. cbn. apply Hall. by right. }
  by rewrite settle_done by (apply Hall; left).
Qed.

Lemma foldl_log_inspect ks c :
  foldl (λ c k, log (EvInspect k) c) c ks =
  mkCluster (events c ++ (EvInspect <$> ks)) (next_key c) (next_session c)
    (sessions c) (unreachable c) (tasks c) (settled c) (arrival c) (engine c).
Proof.
  revert c. induction ks as [|k ks IH]; intros c; cbn.
  { rewrite app_nil_r. by destruct c. }
  rewrite IH. cbn. by rewrite <- app_assoc.
Qed.

(** ** One fit round *)

Section RoundFacts.
Variables (s : KMeans) (c : Cluster) (data : DistributedDataHandler).
Hypothesis Hwf : cluster_wf c.

Lemma submitted_frame :
  settled (submitted s c data) = settled c ∧
  sessions (submitted s c data) = sessions (opened c data) ∧
  engine (submitted s c data) = engine c ∧
  next_key (submitted s c data) =
    next_key c + length (worker_to_parts data).
Proof.
  unfold submitted.
  destruct (foldl_submit_frame (round_args s c data) (worker_to_parts data)
              (opened c data)) as (->&->&->&_&->).
  done.
Qed.

Lemma round_key_fresh i : settled c !! (next_key c + i) = None.
Proof.
  destruct (settled c !! (next_key c + i)) as [o|] eqn:Ho; [|done].
  apply (proj2 Hwf) in Ho. lia.
Qed.

(** After the barrier the [i]-th future holds what the [i]-th worker's
    task returned or raised. *)
Lemma waited_settled i :
  i < length (worker_to_parts data) →
  settled (waited s c data) !! (next_key c + i) = task_outcomes s c data !! i.
Proof.
  intros Hi. destruct (lookup_lt_is_Some_2 _ _ Hi) as [wf Hwfi].
  unfold waited. rewrite settled_foldl_settle. cbn.
  destruct submitted_frame as (Hs&Hss&He&_).
  rewrite Hs, round_key_fresh.
  rewrite decide_True.
  2:{ apply elem_of_app. right. unfold round_keys.
      apply elem_of_seq. lia. }
  unfold submitted at 2.
  erewrite (tasks_foldl_submit _ _ (opened c data) i wf Hwfi). cbn.
  unfold task_outcomes. rewrite list_lookup_fmap, Hwfi. cbn. f_equal.
  unfold run_task. cbn. apply _func_fit_ext; cbn; [by rewrite Hss|by rewrite He].
Qed.

Lemma waited_done k :
  k ∈ round_keys c data → is_Some (settled (waited s c data) !! k).
Proof.
  unfold round_keys. intros [Hlo Hhi]%elem_of_seq.
  replace k with (next_key c + (k - next_key c)) by lia.
  rewrite waited_settled by lia. apply lookup_lt_is_Some_2.
  unfold task_outcomes. rewrite length_fmap. lia.
Qed.

Lemma round_exceptions :
  omap id (exceptions (waited s c data) (round_keys c data)) =
  omap failure (task_outcomes s c data).
Proof.
  destruct (foldl_inspect_done (round_keys c data) (waited s c data))
    as [_ ->]; [apply waited_done|].
  assert ((λ k, settled (waited s c data) !! k ≫= failure)
            <$> round_keys c data
          = failure <$> task_outcomes s c data) as ->.
  { apply list_eq. intros i. rewrite !list_lookup_fmap. unfold round_keys.
    destruct (decide (i < length (worker_to_parts data))) as [Hi|Hi].
    - rewrite lookup_seq_lt by done. cbn. rewrite waited_settled by done.
      destruct (lookup_lt_is_Some_2 (task_outcomes s c data) i) as [o ->];
        [|done].
      unfold task_outcomes. by rewrite length_fmap.
    - rewrite lookup_seq_ge by lia. cbn.
      rewrite lookup_ge_None_2; [done|].
      unfold task_outcomes. rewrite length_fmap. lia. }
  induction (task_outcomes s c data) as [|[m|e] l IH]; cbn; [done|done|].
  by rewrite IH.
Qed.

Lemma inspected_eq :
  inspected s c data =
  let w := waited s c data in
  mkCluster (events w ++ (EvInspect <$> round_keys c data)) (next_key w)
    (next_session w) (sessions w) (unreachable w) (tasks w) (settled w)
    (arrival w) (engine w).
Proof.
  unfold inspected.
  destruct (foldl_inspect_done (round_keys c data) (waited s c data))
    as [-> _]; [apply waited_done|].
  apply foldl_log_inspect.
Qed.

Lemma destroyed_first o :
  task_outcomes s c data !! 0 = Some o →
  settled (destroyed s c data) !! next_key c = Some o.
Proof.
  intros Ho. unfold destroyed. cbn. rewrite inspected_eq. cbn.
  rewrite <- Ho, <- waited_settled, Nat.add_0_r; [done|].
  apply lookup_lt_Some in Ho. unfold task_outcomes in Ho.
  by rewrite length_fmap in Ho.
Qed.

Lemma inspected_events :
  events (inspected s c data) =
  events c ++ EvCommsInit (round_sid c) (workers data)
    :: round_submits s c data
    ++ EvWait (round_keys c data)
    :: (EvSettled <$> round_order s c data)
    ++ (EvInspect <$> round_keys c data).
Proof.
  rewrite inspected_eq. cbn. unfold waited.
  rewrite events_foldl_settle. cbn. unfold submitted at 1.
  rewrite events_foldl_submit. cbn.
  unfold round_order, round_submits.
  by rewrite <- !app_assoc.
Qed.

(** The barrier lets no task of the round out unfinished. *)
Lemma round_order_covers k :
  k ∈ round_keys c data → k ∈ round_order s c data.
Proof.
  intros Hk. pose proof Hk as [Hlo Hhi]%elem_of_seq.
  destruct (lookup_lt_is_Some_2 (worker_to_parts data) (k - next_key c))
    as [wf Hwfi]; [lia|].
  unfold round_order.
  eapply settle_order_elem.
  - apply elem_of_app. by right.
  - cbn. destruct submitted_frame as (->&_).
    replace k with (next_key c + (k - next_key c)) by lia.
    apply round_key_fresh.
  - cbn. replace k with (next_key c + (k - next_key c)) by lia.
    unfold submitted.
    apply (tasks_foldl_submit _ _ (opened c data) _ wf Hwfi).
Qed.
End RoundFacts.

Lemma fit_create_fails X sw e σ :
  DistributedDataHandler_create (fit_inputs X sw) = inl e →
  fit X sw σ = (inl e, σ).
Proof.
  intros He. unfold fit. cbv zeta. rewrite run_bind. unfold lift_exn.
  by rewrite He.
Qed.

Lemma fit_comms_fails X sw s c data :
  DistributedDataHandler_create (fit_inputs X sw) = inr data →
  comms_ready (fresh_session c) (workers data) = false →
  fit X sw (mkWorld s c) =
  (inl CommsInitError,
   mkWorld (set_datatype (datatype data) s) (fresh_session c)).
Proof.
  intros Hd Hr. unfold fit. cbv zeta. rewrite run_bind. unfold lift_exn.
  rewrite Hd. cbv beta iota.
  rewrite run_bind, run_modify_self. cbv beta iota.
  rewrite run_bind, run_comms_new. cbv beta iota.
  rewrite run_bind, run_comms_init, Hr. done.
Qed.

Lemma submit_raises_false_calls s data sid dt mult σ :
  submit_raises s data = false →
  mapM (λ wf, submit_call (fit_args sid dt mult (kwargs s) wf) [wf.1])
    (worker_to_parts data) σ =
  mapM (λ wf, submit (fit_args sid dt mult (kwargs s) wf) [wf.1])
    (worker_to_parts data) σ.
Proof.
  unfold submit_raises. destruct (worker_to_parts data) as [|wf l]; [done|].
  intros H. by apply mapM_submit_call_ok.
Qed.

Lemma submit_raises_true_calls s data sid dt mult σ :
  submit_raises s data = true →
  mapM (λ wf, submit_call (fit_args sid dt mult (kwargs s) wf) [wf.1])
    (worker_to_parts data) σ = (inl CallTypeError, σ).
Proof.
  unfold submit_raises. destruct (worker_to_parts data) as [|wf l]; [done|].
  intros H. by apply mapM_submit_call_raises.
Qed.

Lemma fit_run_ok X sw s c data :
  cluster_wf c →
  DistributedDataHandler_create (fit_inputs X sw) = inr data →
  comms_ready (fresh_session c) (workers data) = true →
  submit_raises s data = false →
  fit X sw (mkWorld s c) = run_round s c data.
Proof.
  intros Hwf Hd Hr Hcall. unfold fit. cbv zeta. rewrite run_bind. unfold lift_exn.
  rewrite Hd. cbv beta iota.
  rewrite run_bind, run_modify_self. cbv beta iota.
  rewrite run_bind, run_comms_new. cbv beta iota.
  rewrite run_bind, run_comms_init, Hr. cbv beta iota.
  rewrite run_bind, run_get_self. cbv beta iota.
  rewrite run_bind. cbn [attr self_datatype set_datatype].
  rewrite run_ret. cbv beta iota.
  rewrite run_bind, (submit_raises_false_calls _ _ _ _ _ _ Hcall).
  rewrite (mapM_submit (fit_args (next_session c) (datatype data)
             (multiple data) (kwargs s))).
  cbv beta iota. cbn [next_key log set_sessions fresh_session sessionId].
  rewrite run_bind, run_wait. cbv beta iota.
  cbn [arrival log set_sessions fresh_session].
  change (fit_args (next_session c) (datatype data) (multiple data) (kwargs s))
    with (round_args s c data).
  change (seq (next_key c) (length (worker_to_parts data)))
    with (round_keys c data).
  rewrite arrival_foldl_submit. cbn [arrival log set_sessions fresh_session sessions].
  change (foldl settle _ _) with (waited s c data).
  unfold raise_exception_from_futures.
  rewrite !run_bind, mapM_future_exception. cbv beta iota.
  rewrite (round_exceptions s c data Hwf).
  change (foldl inspect_step _ _) with (inspected s c data).
  unfold run_round. cbv zeta.
  destruct (omap failure (task_outcomes s c data)) as [|e causes] eqn:Hf;
    [|done].
  rewrite run_ret. cbv beta iota.
  rewrite run_bind, run_comms_destroy. cbv beta iota. cbn [sessionId].
  change (log (EvCommsDestroy _) _) with (destroyed s c data).
  unfold select_model. rewrite !run_bind.
  pose proof (destroyed_first s c data Hwf) as Hfirst.
  unfold round_keys. unfold task_outcomes in Hf, Hfirst |- *.
  destruct (worker_to_parts data) as [|wf wtp]; [done|].
  cbn [length seq index0 fmap list_fmap] in *. rewrite run_ret. cbv beta iota.
  rewrite run_future_result.
  rewrite inspect_step_done by (by erewrite Hfirst).
  cbn [settled log]. erewrite Hfirst by done.
  set (o := _func_fit _ _ _ _ _ _ _) in *.
  destruct o as [m|e]; [|done]. done.
Qed.

Lemma fit_run_raises X sw s c data :
  DistributedDataHandler_create (fit_inputs X sw) = inr data →
  comms_ready (fresh_session c) (workers data) = true →
  submit_raises s data = true →
  fit X sw (mkWorld s c) =
  (inl CallTypeError, mkWorld (set_datatype (datatype data) s) (opened c data)).
Proof.
  intros Hd Hr Hcall. unfold fit. cbv zeta. rewrite run_bind. unfold lift_exn.
  rewrite Hd. cbv beta iota.
  rewrite run_bind, run_modify_self. cbv beta iota.
  rewrite run_bind, run_comms_new. cbv beta iota.
  rewrite run_bind, run_comms_init, Hr. cbv beta iota.
  rewrite run_bind, run_get_self. cbv beta iota.
  rewrite run_bind. cbn [attr self_datatype set_datatype].
  rewrite run_ret. cbv beta iota.
  by rewrite run_bind, (submit_raises_true_calls _ _ _ _ _ _ Hcall).
Qed.

Lemma fit_run X sw s c data :
  cluster_wf c →
  DistributedDataHandler_create (fit_inputs X sw) = inr data →
  comms_ready (fresh_session c) (workers data) = true →
  fit X sw (mkWorld s c) = round_result s c data.
Proof.
  intros Hwf Hd Hr. unfold round_result.
  destruct (submit_raises s data) eqn:Hcall.
  - by apply fit_run_raises.
  - by apply fit_run_ok.
Qed.

Lemma round_outcomes_run s c data :
  submit_raises s data = false → round_outcomes s c data = task_outcomes s c data.
Proof. intros H. unfold round_outcomes. by rewrite H. Qed.

Lemma round_outcomes_Some s c data i o :
  round_outcomes s c data !! i = Some o →
  submit_raises s data = false ∧ task_outcomes s c data !! i = Some o.
Proof. unfold round_outcomes. by destruct (submit_raises s data). Qed.

(** A fit call that returns has run its round to the end. *)
Lemma fit_returns X sw s c data :
  cluster_wf c →
  DistributedDataHandler_create (fit_inputs X sw) = inr data →
  comms_ready (fresh_session c) (workers data) = true →
  (fit X sw (mkWorld s c)).1 = inr () →
  ∃ w0 objs rest m,
    worker_to_parts data = (w0, objs) :: rest ∧
    submit_raises s data = false ∧
    omap failure (task_outcomes s c data) = [] ∧
    _func_fit (opened c data) w0 (round_sid c) objs (datatype data)
      (multiple data) (kwargs s) = Done m ∧
    fit X sw (mkWorld s c) =
    (inr (), mkWorld (set_cluster_centers_ (lm_cluster_centers_ m)
                        (set_local_model m (set_datatype (datatype data) s)))
               (log (EvInspect (next_key c)) (destroyed s c data))).
Proof.
  intros Hwf Hd Hr. rewrite (fit_run _ _ _ _ _ Hwf Hd Hr). unfold round_result.
  destruct (submit_raises s data) eqn:Hcall; [done|].
  unfold run_round. cbv zeta.
  destruct (omap failure (task_outcomes s c data)) as [|e causes] eqn:Hf;
    [|done].
  unfold task_outcomes in *.
  destruct (worker_to_parts data) as [|[w0 objs] rest]; [done|].
  cbn [fmap list_fmap fst snd] in *.
  destruct (_func_fit (opened c data) w0 _ objs _ _ _) as [m|e] eqn:Hm;
    [|done].
  intros _. by exists w0, objs, rest, m.
Qed.

(** ** The log of a fit call *)

Lemma new_events_app c s' c' l :
  events c' = events c ++ l → new_events c (mkWorld s' c') = l.
Proof. intros H. unfold new_events. cbn. rewrite H. apply drop_app_length. Qed.

Lemma fit_log X sw s c data :
  cluster_wf c →
  DistributedDataHandler_create (fit_inputs X sw) = inr data →
  comms_ready (fresh_session c) (workers data) = true →
  let r := fit X sw (mkWorld s c) in
  new_events c r.2 = round_log s c data ++ round_tail c r.1.
Proof.
  intros Hwf Hd Hr. cbv zeta. rewrite (fit_run _ _ _ _ _ Hwf Hd Hr).
  pose proof (inspected_events s c data Hwf) as Hev.
  unfold round_result, round_log.
  destruct (submit_raises s data).
  { cbn [fst snd round_tail]. by apply new_events_app. }
  unfold run_round. cbv zeta.
  destruct (omap failure (task_outcomes s c data)) as [|e causes].
  - destruct (task_outcomes s c data) as [|[m|e] outs]; cbn [fst snd];
      apply new_events_app; unfold destroyed; cbn; rewrite Hev;
      unfold run_log;
      repeat first [rewrite <- app_assoc | rewrite <- app_comm_cons]; done.
  - cbn [fst snd]. apply new_events_app. rewrite Hev. unfold run_log.
    cbn. by rewrite app_nil_r.
Qed.

Lemma omap_submit_of_imap (f : nat → worker * list Obj → nat * list worker * FitArgs) l :
  omap submit_of (imap (λ i wf, EvSubmit (f i wf).1.1 (f i wf).1.2 (f i wf).2) l)
  = imap f l.
Proof.
  revert f. induction l as [|wf l IH]; intros f; [done|].
  rewrite !imap_cons. cbn. rewrite <- (IH (f ∘ S)).
  by destruct (f 0 wf) as [[??]?].
Qed.

Lemma submits_run_log s c data :
  omap submit_of (run_log s c data) =
  imap (λ i wf, (next_key c + i, [wf.1], round_args s c data wf))
    (worker_to_parts data).
Proof.
  unfold run_log. cbn. rewrite omap_app. cbn. rewrite omap_app.
  assert (∀ (g : nat → Event) (l : list nat),
    (∀ k, submit_of (g k) = None) → omap submit_of (g <$> l) = []) as Hnone.
  { intros g l Hg. induction l as [|k l IH]; cbn; [done|]. by rewrite Hg. }
  rewrite !Hnone, !app_nil_r by done.
  unfold round_submits.
  apply (omap_submit_of_imap
           (λ i wf, (next_key c + i, [wf.1], round_args s c data wf))).
Qed.

Lemma submits_round_log s c data :
  omap submit_of (round_log s c data) =
  if submit_raises s data then []
  else imap (λ i wf, (next_key c + i, [wf.1], round_args s c data wf))
         (worker_to_parts data).
Proof.
  unfold round_log. destruct (submit_raises s data); [done|].
  apply submits_run_log.
Qed.

Lemma submit_keys_run_log s c data :
  submit_keys (run_log s c data) = round_keys c data.
Proof.
  unfold submit_keys. rewrite submits_run_log, fmap_imap. unfold round_keys.
  generalize (next_key c). induction (worker_to_parts data) as [|wf l IH];
    intros n; [done|].
  rewrite imap_cons. cbn. rewrite Nat.add_0_r. f_equal.
  rewrite <- IH. apply imap_ext. intros i x _. cbn. lia.
Qed.

Lemma inits_round_log s c data :
  omap init_of (round_log s c data) = [(round_sid c, workers data)].
Proof.
  unfold round_log. destruct (submit_raises s data); [done|].
  unfold run_log. cbn. f_equal. rewrite omap_app. cbn. rewrite omap_app.
  assert (∀ l, Forall (λ e, init_of e = None) l → omap init_of l = []) as Hn.
  { induction 1 as [|e l He _ IH]; cbn; [done|]. by rewrite He. }
  rewrite !Hn; [done|by apply Forall_fmap, Forall_true..|].
  apply Forall_forall. by intros e (i&wf&->&_)%elem_of_lookup_imap.
Qed.

Lemma closes_round_log s c data sid : closes sid (round_log s c data) = 0.
Proof.
  unfold closes.
  assert (Forall (λ e, ¬ is_destroy sid e) (round_log s c data)) as Hall.
  { unfold round_log. destruct (submit_raises s data).
    { apply Forall_cons. split; [by intros []|]. apply Forall_nil_2. }
    unfold run_log. apply Forall_cons. split; [by intros []|].
    apply Forall_app. split.
    - apply Forall_forall. by intros e (i&wf&->&_)%elem_of_lookup_imap [].
    - apply Forall_cons. split; [by intros []|].
      apply Forall_app. split; apply Forall_fmap, Forall_true; by intros k []. }
  induction Hall as [|e l He _ IH]; [done|].
  by rewrite filter_cons, decide_False.
Qed.

Lemma failures_nonempty outs i e :
  outs !! i = Some (Failed e) → omap failure outs ≠ [].
Proof.
  intros Hi Hnil. apply list_elem_of_lookup_2 in Hi.
  assert (e ∈ omap failure outs) as He.
  { apply list_elem_of_omap. by exists (Failed e). }
  rewrite Hnil in He. by apply elem_of_nil in He.
Qed.

Lemma fit_run_failure X sw s c data i e :
  cluster_wf c →
  DistributedDataHandler_create (fit_inputs X sw) = inr data →
  comms_ready (fresh_session c) (workers data) = true →
  round_outcomes s c data !! i = Some (Failed e) →
  fit X sw (mkWorld s c) =
  (inl (DistributedFitError (omap failure (round_outcomes s c data))),
   mkWorld (set_datatype (datatype data) s) (inspected s c data)).
Proof.
  intros Hwf Hd Hr Hi. apply round_outcomes_Some in Hi as [Hcall Hi].
  rewrite (fit_run_ok _ _ _ _ _ Hwf Hd Hr Hcall), (round_outcomes_run _ _ _ Hcall).
  unfold run_round. cbv zeta. apply failures_nonempty in Hi.
  by destruct (omap failure (task_outcomes s c data)).
Qed.

Lemma sessions_inspected s c data :
  cluster_wf c →
  sessions (inspected s c data) = <[round_sid c := workers data]> (sessions c).
Proof.
  intros Hwf. rewrite (inspected_eq s c data Hwf). cbn. unfold waited.
  destruct (foldl_settle_frame (arrival c (round_keys c data) ++ round_keys c data)
    (log (EvWait (round_keys c data)) (submitted s c data))) as (_&->&_).
  cbn. by destruct (submitted_frame s c data) as (_&->&_).
Qed.

(** Each task of a round finds its worker's handle of the session and
    hands the engine the concatenation of that worker's own partitions. *)
Lemma round_task_engine X sw s c data w objs :
  DistributedDataHandler_create (fit_inputs X sw) = inr data →
  (w, objs) ∈ worker_to_parts data →
  _func_fit (opened c data) w (round_sid c) objs (datatype data)
    (multiple data) (kwargs s) =
  engine c (mkHandle (round_sid c) w) (coll_type X) (kwargs s)
    (concatenate (parts_on w (coll_parts X))) (weights_on w sw).
Proof.
  intros Hd Hin.
  destruct (create_spec _ _ Hd) as (Hdt&Hws&Hwtp&Hkeys&_).
  rewrite inputs_X_fit_inputs in *.
  rewrite Hwtp in Hin.
  apply (proj2 (workers_to_parts_spec (gpu_futures data))) in Hin as [Hw ->].
  unfold _func_fit, worker_state. cbn [sessions opened log set_sessions].
  rewrite lookup_insert_eq, decide_True
    by (rewrite Hws, elem_of_list_to_set; by rewrite <- Hkeys).
  rewrite Hdt. cbn [engine opened log set_sessions fresh_session].
  destruct sw as [W|]; cbn in Hd.
  - destruct (alignedb _ _) eqn:Hal; [|done]. apply alignedb_spec in Hal.
    injection Hd as <-. cbn [mk_handler gpu_futures multiple negb].
    by rewrite all_pairs_aligned.
  - injection Hd as <-. cbn [mk_handler gpu_futures multiple negb].
    by rewrite all_parts_single.
Qed.

(** ** Well-formed clusters *)

Lemma settle_wf c k : cluster_wf c → cluster_wf (settle c k).
Proof.
  intros [Ht Hs]. unfold settle.
  destruct (settled c !! k) as [o|] eqn:Hk; [done|].
  destruct (tasks c !! k) as [t|] eqn:Htk; [|done].
  split; cbn; [done|]. intros j o [[-> _]|[_ Hj]]%lookup_insert_Some; eauto.
Qed.

Lemma foldl_settle_wf l c : cluster_wf c → cluster_wf (foldl settle c l).
Proof.
  revert c. induction l as [|k l IH]; intros c Hc; [done|].
  cbn. by apply IH, settle_wf.
Qed.

Lemma submit_step_wf f c wf : cluster_wf c → cluster_wf (submit_step f c wf).
Proof.
  intros [Ht Hs]. split; cbn.
  - intros k t [[<- _]|[_ Hk]]%lookup_insert_Some; [lia|].
    apply Ht in Hk. lia.
  - intros k o Hk. apply Hs in Hk. lia.
Qed.

Lemma foldl_submit_wf f l c :
  cluster_wf c → cluster_wf (foldl (submit_step f) c l).
Proof.
  revert c. induction l as [|wf l IH]; intros c Hc; [done|].
  cbn. by apply IH, submit_step_wf.
Qed.

Lemma foldl_inspect_wf l c : cluster_wf c → cluster_wf (foldl inspect_step c l).
Proof.
  revert c. induction l as [|k l IH]; intros c Hc; [done|].
  cbn. apply IH. unfold inspect_step. by apply (settle_wf c k) in Hc.
Qed.

(** A fit call, however it ends, hands back a well-formed cluster: the
    next call finds its futures fresh. *)
Lemma fit_preserves_wf X sw s c :
  cluster_wf c → cluster_wf (cluster (fit X sw (mkWorld s c)).2).
Proof.
  intros Hwf.
  destruct (DistributedDataHandler_create (fit_inputs X sw)) as [e|data] eqn:Hd.
  { by rewrite (fit_create_fails _ _ _ _ Hd). }
  destruct (comms_ready (fresh_session c) (workers data)) eqn:Hr.
  2:{ by rewrite (fit_comms_fails _ _ _ _ _ Hd Hr). }
  rewrite (fit_run _ _ _ _ _ Hwf Hd Hr).
  assert (cluster_wf (inspected s c data)) as Hi.
  { apply foldl_inspect_wf, foldl_settle_wf.
    by apply (foldl_submit_wf _ _ (opened c data)). }
  unfold round_result. destruct (submit_raises s data); [done|].
  unfold run_round. cbv zeta.
  destruct (omap failure (task_outcomes s c data)); [|done].
  by destruct (task_outcomes s c data) as [|[m|e] outs].
Qed.

(** The demo cluster has no futures yet. *)
Ltac demo_wf := split; intros ? ? Ho; vm_compute in Ho; discriminate.

(** ** The claims *)

(** C1 (not met by the code).  Required: the session of a fit call is
    closed exactly once before the call returns or raises, also when fit
    tasks fail.  What [fit] does: when a task fails it leaves with the
    aggregated error from [raise_exception_from_futures], which stands
    before [comms.destroy()]; the session it opened is not closed in the
    call and is still open when the error reaches the caller. *)
Theorem fit_failure_leaves_session_open X sw s c data i e :
  cluster_wf c →
  DistributedDataHandler_create (fit_inputs X sw) = inr data →
  comms_ready (fresh_session c) (workers data) = true →
  round_outcomes s c data !! i = Some (Failed e) →
  let r := fit X sw (mkWorld s c) in
  (∃ causes, r.1 = inl (DistributedFitError causes)) ∧
  omap init_of (new_events c r.2) = [(round_sid c, workers data)] ∧
  closes (round_sid c) (new_events c r.2) = 0 ∧
  sessions (cluster r.2) !! round_sid c = Some (workers data).
Proof.
  intros Hwf Hd Hr Hi r.
  pose proof (fit_log X sw s c data Hwf Hd Hr) as Hlog. cbv zeta in Hlog.
  fold r in Hlog. rewrite Hlog. subst r.
  rewrite (fit_run_failure _ _ _ _ _ _ _ Hwf Hd Hr Hi). cbn [fst snd round_tail].
  rewrite app_nil_r. split_and!.
  - by eexists.
  - apply inits_round_log.
  - apply closes_round_log.
  - cbn. rewrite sessions_inspected by done. apply lookup_insert_eq.
Qed.

Lemma fit_failure_leaves_session_open_witness :
  let c := demo_cluster ["w1"] in
  let r := fit demo_X None (mkWorld demo_kmeans c) in
  round_outcomes demo_kmeans c demo_data !! 1 = Some (Failed (EngineError "w1")) ∧
  (∃ causes, r.1 = inl (DistributedFitError causes)) ∧
  closes 0 (new_events c r.2) = 0 ∧
  sessions (cluster r.2) !! 0 = Some (workers demo_data).
Proof.
  intros c r.
  assert (round_outcomes demo_kmeans c demo_data !! 1
          = Some (Failed (EngineError "w1"))) as Hi by (vm_compute; reflexivity).
  assert (cluster_wf c) as Hwf by demo_wf.
  destruct (fit_failure_leaves_session_open demo_X None demo_kmeans c demo_data
              1 (EngineError "w1") Hwf eq_refl eq_refl Hi) as (H1&_&H3&H4).
  by split_and!.
Defined.

(** X1.  When [fit] returns, the session it opened has been closed
    exactly once in the call and is no longer open. *)
Lemma fit_success_closes_once X sw s c data :
  cluster_wf c →
  DistributedDataHandler_create (fit_inputs X sw) = inr data →
  comms_ready (fresh_session c) (workers data) = true →
  let r := fit X sw (mkWorld s c) in
  r.1 = inr () →
  closes (round_sid c) (new_events c r.2) = 1 ∧
  sessions (cluster r.2) !! round_sid c = None.
Proof.
  intros Hwf Hd Hr r Hok.
  pose proof (fit_log X sw s c data Hwf Hd Hr) as Hlog. cbv zeta in Hlog.
  fold r in Hlog. rewrite Hlog, Hok. split.
  - unfold closes. rewrite filter_app, length_app.
    fold (closes (round_sid c) (round_log s c data)).
    rewrite closes_round_log. cbn [round_tail].
    rewrite filter_cons, decide_True
      by (cbn; by rewrite bool_decide_eq_true_2).
    by rewrite filter_cons, decide_False by by intros [].
  - subst r. revert Hok. rewrite (fit_run _ _ _ _ _ Hwf Hd Hr).
    unfold round_result, round_outcomes.
    destruct (submit_raises s data); [done|]. unfold run_round. cbv zeta.
    destruct (omap failure (task_outcomes s c data)); [|done].
    destruct (task_outcomes s c data) as [|[m|e] outs]; [done| |done].
    intros _. cbn. apply lookup_delete_eq.
Qed.

(** C2.  If one or more per-worker fit tasks fail, [fit] raises a single
    [DistributedFitError] whose causes are the exceptions of all the
    failed tasks, in assignment order, and nothing else; it does not
    return normally. *)
Theorem fit_raises_aggregate_error X sw s c data i e :
  cluster_wf c →
  DistributedDataHandler_create (fit_inputs X sw) = inr data →
  comms_ready (fresh_session c) (workers data) = true →
  round_outcomes s c data !! i = Some (Failed e) →
  ∃ causes,
    (fit X sw (mkWorld s c)).1 = inl (DistributedFitError causes) ∧
    causes = omap failure (round_outcomes s c data) ∧
    (∀ e', e' ∈ causes ↔ Failed e' ∈ round_outcomes s c data) ∧
    (fit X sw (mkWorld s c)).1 ≠ inr ().
Proof.
  intros Hwf Hd Hr Hi.
  rewrite (fit_run_failure _ _ _ _ _ _ _ Hwf Hd Hr Hi). eexists.
  split_and!; [done..| |done].
  intros e'. rewrite list_elem_of_omap. split.
  - by intros ([m|e'']&Hin&[= ->]).
  - intros Hin. by exists (Failed e').
Qed.

Lemma fit_raises_aggregate_error_witness :
  let c := demo_cluster ["w0"; "w1"] in
  round_outcomes demo_kmeans c demo_data !! 1 = Some (Failed (EngineError "w1")) ∧
  (fit demo_X None (mkWorld demo_kmeans c)).1
  = inl (DistributedFitError [EngineError "w0"; EngineError "w1"]).
Proof.
  intros c.
  assert (round_outcomes demo_kmeans c demo_data !! 1
          = Some (Failed (EngineError "w1"))) as Hi by (vm_compute; reflexivity).
  assert (cluster_wf c) as Hwf by demo_wf.
  destruct (fit_raises_aggregate_error demo_X None demo_kmeans c demo_data
              1 (EngineError "w1") Hwf eq_refl eq_refl Hi) as (causes&H1&H2&_).
  split; [done|]. rewrite H1, H2. vm_compute. reflexivity.
Defined.

(** C3.  A failing fit publishes no model: if any per-worker fit task
    fails, worker 0's or another's, [fit] raises the aggregated error and
    [local_model] and [cluster_centers_] are what they were before the
    call. *)
Theorem fit_failure_publishes_no_model X sw s c data i e :
  cluster_wf c →
  DistributedDataHandler_create (fit_inputs X sw) = inr data →
  comms_ready (fresh_session c) (workers data) = true →
  round_outcomes s c data !! i = Some (Failed e) →
  let r := fit X sw (mkWorld s c) in
  (∃ causes, r.1 = inl (DistributedFitError causes)) ∧
  local_model (self r.2) = local_model s ∧
  cluster_centers_ (self r.2) = cluster_centers_ s.
Proof.
  intros Hwf Hd Hr Hi r. subst r.
  rewrite (fit_run_failure _ _ _ _ _ _ _ Hwf Hd Hr Hi). cbn.
  split; [by eexists|done].
Qed.

Lemma fit_failure_publishes_no_model_witness :
  let c := demo_cluster ["w0"] in
  let r := fit demo_X None (mkWorld demo_kmeans c) in
  round_outcomes demo_kmeans c demo_data !! 0 = Some (Failed (EngineError "w0")) ∧
  local_model (self r.2) = None ∧ cluster_centers_ (self r.2) = None.
Proof.
  intros c r.
  assert (round_outcomes demo_kmeans c demo_data !! 0
          = Some (Failed (EngineError "w0"))) as Hi by (vm_compute; reflexivity).
  assert (cluster_wf c) as Hwf by demo_wf.
  destruct (fit_failure_publishes_no_model demo_X None demo_kmeans c demo_data
              0 (EngineError "w0") Hwf eq_refl eq_refl Hi) as (_&H2&H3).
  by split_and!.
Defined.

(** C4.  The log of a fit call that got its session.  When the
    [client.submit] call itself raises (a keyword given twice), the log
    holds the opening of the session and nothing else: no task, no
    [wait].  Otherwise the session is opened, then every task is
    submitted, then there is one [wait] on all the futures just created;
    every task of the round finishes before the first future is
    inspected, and nothing is submitted after the [wait]. *)
Theorem fit_fan_out_fan_in X sw s c data :
  cluster_wf c →
  DistributedDataHandler_create (fit_inputs X sw) = inr data →
  comms_ready (fresh_session c) (workers data) = true →
  let r := fit X sw (mkWorld s c) in
  if submit_raises s data
  then
    r.1 = inl CallTypeError ∧
    new_events c r.2 = [EvCommsInit (round_sid c) (workers data)]
  else
    new_events c r.2 =
      EvCommsInit (round_sid c) (workers data)
        :: round_submits s c data
        ++ EvWait (round_keys c data)
        :: (EvSettled <$> round_order s c data)
        ++ (EvInspect <$> round_keys c data)
        ++ round_tail c r.1 ∧
    submit_keys (round_submits s c data) = round_keys c data ∧
    length (round_submits s c data) = length (worker_to_parts data) ∧
    (∀ k, k ∈ round_keys c data → k ∈ round_order s c data) ∧
    submit_keys (round_tail c r.1) = [].
Proof.
  intros Hwf Hd Hr r.
  pose proof (fit_log X sw s c data Hwf Hd Hr) as Hlog. cbv zeta in Hlog.
  fold r in Hlog. unfold round_log in Hlog.
  destruct (submit_raises s data) eqn:Hcall.
  { subst r. rewrite (fit_run_raises _ _ _ _ _ Hd Hr Hcall) in Hlog |- *.
    split; [done|]. by rewrite Hlog. }
  split_and!.
  - rewrite Hlog. unfold run_log.
    repeat first [rewrite <- app_assoc | rewrite <- app_comm_cons]; done.
  - unfold submit_keys, round_submits.
    rewrite (omap_submit_of_imap
               (λ i wf, (next_key c + i, [wf.1], round_args s c data wf))).
    rewrite <- (submit_keys_run_log s c data). unfold submit_keys.
    by rewrite submits_run_log.
  - apply length_imap.
  - apply round_order_covers. done.
  - by destruct r.1 as [[]|].
Qed.

Lemma fit_fan_out_fan_in_witness :
  let c := demo_cluster [] in
  new_events c (fit demo_X None (mkWorld demo_kmeans c)).2 =
  [EvCommsInit 0 {["w0"; "w1"]};
   EvSubmit 0 ["w0"]
     (mkFitArgs 0 [OPart (mkPart 0 10); OPart (mkPart 2 5)] Cupy false
        [("n_clusters", 2%Z)]);
   EvSubmit 1 ["w1"]
     (mkFitArgs 0 [OPart (mkPart 1 20)] Cupy false [("n_clusters", 2%Z)]);
   EvWait [0; 1]; EvSettled 1; EvSettled 0; EvInspect 0; EvInspect 1;
   EvCommsDestroy 0; EvInspect 0].
Proof.
  intros c.
  assert (cluster_wf c) as Hwf by demo_wf.
  pose proof (fit_fan_out_fan_in demo_X None demo_kmeans c demo_data
                Hwf eq_refl eq_refl) as H.
  cbv zeta in H.
  change (submit_raises demo_kmeans demo_data) with false in H.
  destruct H as (H1&_).
  rewrite H1. vm_compute. reflexivity.
Defined.

(** C5.  Unless the [client.submit] call itself raises (a keyword
    given twice), for every worker of the assignment [fit] submits
    exactly one task, restricted to that worker ([workers=[w]], so it
    runs there);
    its arguments are the session identifier, the worker's own objects,
    the datatype, the weights flag and the hyperparameters.  The objects
    are exactly the partitions the input places on that worker: no task
    is given a partition that lives elsewhere, and what the task hands to
    the engine is the concatenation of its worker's partitions. *)
Theorem fit_one_pinned_task_per_worker X sw s c data :
  cluster_wf c →
  DistributedDataHandler_create (fit_inputs X sw) = inr data →
  comms_ready (fresh_session c) (workers data) = true →
  submit_raises s data = false →
  let r := fit X sw (mkWorld s c) in
  omap submit_of (new_events c r.2) =
    imap (λ i wf, (next_key c + i, [wf.1],
                   mkFitArgs (round_sid c) wf.2 (coll_type X) (multiple data)
                     (kwargs s)))
      (worker_to_parts data) ∧
  NoDup (worker_to_parts data).*1 ∧
  (∀ w, w ∈ (worker_to_parts data).*1 ↔ w ∈ workers data) ∧
  ∀ w objs, (w, objs) ∈ worker_to_parts data →
    obj_x <$> objs = parts_on w (coll_parts X) ∧
    Forall (owned w (fit_inputs X sw)) objs ∧
    run_task (opened c data)
      (mkTask (mkFitArgs (round_sid c) objs (coll_type X) (multiple data)
                 (kwargs s)) [w]) =
    engine c (mkHandle (round_sid c) w) (coll_type X) (kwargs s)
      (concatenate (parts_on w (coll_parts X))) (weights_on w sw).
Proof.
  intros Hwf Hd Hr Hcall r.
  pose proof (fit_log X sw s c data Hwf Hd Hr) as Hlog. cbv zeta in Hlog.
  fold r in Hlog.
  destruct (create_spec _ _ Hd) as (Hdt&Hws&Hwtp&Hkeys&Hown&Hfeat&_).
  rewrite inputs_X_fit_inputs in *.
  destruct (workers_to_parts_spec (gpu_futures data)) as [Hnd Hin].
  rewrite <- Hwtp in Hnd, Hin. split_and!.
  - rewrite Hlog, omap_app, submits_round_log, Hcall.
    assert (omap submit_of (round_tail c r.1) = []) as ->
      by by destruct r.1 as [[]|].
    rewrite app_nil_r. unfold round_args, fit_args. by rewrite Hdt.
  - done.
  - intros w. rewrite Hws, elem_of_list_to_set, <- Hkeys.
    rewrite list_elem_of_fmap. split.
    + intros ([v os]&->&Hm). by apply Hin in Hm as [? _].
    + intros Hw. exists (w, objs_on w (gpu_futures data)). split; [done|].
      by apply Hin.
  - intros w objs Hm. split_and!.
    + apply Hin in Hm as [Hw ->]. apply Hfeat.
    + apply Hin in Hm as [Hw ->].
      apply Forall_forall. intros o Ho%elem_of_objs_on. by apply Hown.
    + unfold run_task. cbn.
      rewrite <- (round_task_engine X sw s c data w objs Hd Hm).
      by rewrite Hdt.
Qed.

Lemma fit_one_pinned_task_per_worker_witness :
  let c := demo_cluster [] in
  omap submit_of (new_events c (fit demo_X None (mkWorld demo_kmeans c)).2) =
  [(0, ["w0"], mkFitArgs 0 [OPart (mkPart 0 10); OPart (mkPart 2 5)] Cupy
                 false [("n_clusters", 2%Z)]);
   (1, ["w1"], mkFitArgs 0 [OPart (mkPart 1 20)] Cupy false
                 [("n_clusters", 2%Z)])].
Proof.
  intros c.
  assert (cluster_wf c) as Hwf by demo_wf.
  destruct (fit_one_pinned_task_per_worker demo_X None demo_kmeans c demo_data
              Hwf eq_refl eq_refl eq_refl) as (H1&_).
  rewrite H1. vm_compute. reflexivity.
Defined.

Lemma round_outcomes_arrival a s c data :
  round_outcomes s (set_arrival a c) data = round_outcomes s c data.
Proof. reflexivity. Qed.

(** C6.  After a successful fit the model is the one returned by the
    task of the first worker of the assignment.  The choice does not
    depend on the order in which the tasks finish, and selecting again
    from the same futures gives the same model. *)
Theorem model_selection_first_worker X sw s c data :
  cluster_wf c →
  DistributedDataHandler_create (fit_inputs X sw) = inr data →
  comms_ready (fresh_session c) (workers data) = true →
  let r := fit X sw (mkWorld s c) in
  r.1 = inr () →
  ∃ w0 objs rest m,
    worker_to_parts data = (w0, objs) :: rest ∧
    _func_fit (opened c data) w0 (round_sid c) objs (datatype data)
      (multiple data) (kwargs s) = Done m ∧
    local_model (self r.2) = Some m ∧
    cluster_centers_ (self r.2) = Some (lm_cluster_centers_ m) ∧
    (select_model (round_keys c data) r.2).1 = inr m ∧
    ∀ a, let r' := fit X sw (mkWorld s (set_arrival a c)) in
         r'.1 = inr () ∧ self r'.2 = self r.2.
Proof.
  intros Hwf Hd Hr r Hok.
  destruct (fit_returns X sw s c data Hwf Hd Hr Hok)
    as (w0&objs&rest&m&Hwtp&Hcall&Hnil&Hm&Hrun).
  assert (task_outcomes s c data !! 0 = Some (Done m)) as H0.
  { unfold task_outcomes. rewrite Hwtp. cbn. by rewrite Hm. }
  pose proof (destroyed_first s c data Hwf _ H0) as Hfirst.
  exists w0, objs, rest, m. subst r. rewrite Hrun. cbn [fst snd].
  split_and!; try done.
  - unfold select_model, round_keys. rewrite Hwtp. cbn [length seq].
    rewrite run_bind. cbn [index0]. rewrite run_ret.
    cbv beta iota. rewrite run_future_result.
    rewrite inspect_step_done by (cbn [settled log]; by rewrite Hfirst).
    cbn [settled log fst]. by rewrite Hfirst.
  - intros a. cbv zeta.
    rewrite (fit_run_ok X sw s (set_arrival a c) data) by done.
    unfold run_round. cbv zeta.
    change (task_outcomes s (set_arrival a c) data)
      with (task_outcomes s c data).
    rewrite Hnil. unfold task_outcomes. rewrite Hwtp. cbn [fmap list_fmap fst snd].
    by rewrite Hm.
Qed.

Lemma model_selection_first_worker_witness :
  let c := demo_cluster [] in
  let r := fit demo_X None (mkWorld demo_kmeans c) in
  r.1 = inr () ∧
  local_model (self r.2) = Some (mkLocalModel "w0" [[15%Z]]) ∧
  local_model (self (fit demo_X None (mkWorld demo_kmeans (set_arrival id c))).2)
  = Some (mkLocalModel "w0" [[15%Z]]).
Proof.
  intros c r.
  assert (cluster_wf c) as Hwf by demo_wf.
  assert (r.1 = inr ()) as Hok by (vm_compute; reflexivity).
  destruct (model_selection_first_worker demo_X None demo_kmeans c demo_data
              Hwf eq_refl eq_refl Hok)
    as (w0&objs&rest&m&Hwtp&Hm&Hlm&_&_&Harr).
  injection Hwtp as <- <- <-. vm_compute in Hm. injection Hm as <-.
  split_and!; [done|done|].
  destruct (Harr id) as [_ ->]. done.
Defined.

(** ** The reduction of [score] *)

Lemma Prim2SF_minus_one :
  Prim2SF (-1)%float = S754_finite true 4503599627370496 (-52).
Proof. reflexivity. Qed.

Lemma shr_fexp_canonical mx ex :
  canonical_mantissa prec emax mx ex = true →
  shr_fexp prec emax (Zpos mx) ex loc_Exact
  = ({| shr_m := Zpos mx; shr_r := false; shr_s := false |}, ex).
Proof.
  unfold canonical_mantissa, shr_fexp. intros H%Z.eqb_eq. cbn [Zdigits2].
  rewrite H, Z.sub_diag. reflexivity.
Qed.

(** Rounding a mantissa shifted left by 52 bits at an exponent 52 lower
    gives the number back: the product with a unit does not round. *)
Lemma round_unit sx mx ex :
  bounded prec emax mx ex = true →
  binary_round_aux prec emax sx (Zpos (4503599627370496 * mx)) (ex + -52)
    loc_Exact
  = S754_finite sx mx ex.
Proof.
  unfold bounded. intros [Hc Hb]%andb_true_iff.
  unfold binary_round_aux.
  assert (shr_fexp prec emax (Z.pos (4503599627370496 * mx)) (ex + -52)
            loc_Exact
          = ({| shr_m := Zpos mx; shr_r := false; shr_s := false |}, ex)) as ->.
  { unfold shr_fexp.
    assert (Zdigits2 (Z.pos (4503599627370496 * mx))
            = (Zpos (digits2_pos mx) + 52)%Z) as ->
      by (cbv [Pos.mul]; cbn [Zdigits2 digits2_pos]; lia).
    replace (Z.pos (digits2_pos mx) + 52 + (ex + -52))%Z
      with (Z.pos (digits2_pos mx) + ex)%Z by lia.
    apply Z.eqb_eq in Hc. rewrite Hc.
    replace (ex - (ex + -52))%Z with 52%Z by lia.
    cbv [Pos.mul]. cbn. f_equal. lia. }
  cbn [shr_m loc_of_shr_record round_nearest_even].
  rewrite (shr_fexp_canonical _ _ Hc). cbn [shr_m]. by rewrite Hb.
Qed.

(** [-1 * x] and [x * -1.0] flip the sign of [x] and nothing else. *)
Lemma fmul_m1_l (x : float) : (-1 * x)%float = (- x)%float.
Proof.
  apply Prim2SF_inj. rewrite mul_spec, opp_spec, Prim2SF_minus_one.
  pose proof (Prim2SF_valid x) as Hv.
  destruct (Prim2SF x) as [s|s| |s mx ex]; try done.
  cbn [SF64mul SFmul SFopp valid_binary] in *.
  change (xorb true s) with (negb s).
  replace (-52 + ex)%Z with (ex + -52)%Z by lia.
  by apply round_unit.
Qed.

Lemma fmul_m1_r (x : float) : (x * -1)%float = (- x)%float.
Proof.
  apply Prim2SF_inj. rewrite mul_spec, opp_spec, Prim2SF_minus_one.
  pose proof (Prim2SF_valid x) as Hv.
  destruct (Prim2SF x) as [s|s| |s mx ex]; [by destruct s..|done|].
  cbn [SF64mul SFmul SFopp valid_binary] in *.
  rewrite Pos.mul_comm, xorb_true_r.
  by apply round_unit.
Qed.

Lemma fopp_involutive (x : float) : (- - x)%float = x.
Proof.
  apply Prim2SF_inj. rewrite !opp_spec.
  destruct (Prim2SF x) as [s|s| |s mx ex]; cbn; by rewrite ?negb_involutive.
Qed.

Lemma fopp_inj (x y : float) : (- x)%float = (- y)%float → x = y.
Proof. intros H. by rewrite <- (fopp_involutive x), H, fopp_involutive. Qed.

(** Adding to [0.0] returns the number added, except that [-0.0] comes
    back as [0.0]. *)
Lemma fadd_0_l (x : float) : x ≠ neg_zero → (0 + x)%float = x.
Proof.
  intros Hx. apply Prim2SF_inj. rewrite add_spec.
  change (Prim2SF 0) with (S754_zero false).
  destruct (Prim2SF x) as [s|s| |s mx ex] eqn:E; try done.
  destruct s; [|done]. destruct Hx. apply Prim2SF_inj. by rewrite E.
Qed.

Lemma run_score rows_of model_score X s c m :
  local_model s = Some m →
  score rows_of model_score X (mkWorld s c) =
  (inr (-1 * cp_sum ((λ x, x * -1)%float
                       <$> (_score rows_of model_score m
                              <$> (coll_parts X).*2)))%float,
   mkWorld s c).
Proof.
  intros Hm. unfold score, _run_parallel_func.
  rewrite !run_bind, run_get_self. cbv beta iota.
  rewrite run_bind, Hm. cbn [attr]. by rewrite run_ret.
Qed.

(** The inertia of a dataset is the sum of the inertias of its shards. *)
Lemma inertia_app cs l1 l2 :
  inertia cs (l1 ++ l2) = (inertia cs l1 + inertia cs l2)%Z.
Proof.
  unfold inertia. induction l1 as [|x l1 IH]; [done|]. cbn. rewrite IH. lia.
Qed.

Lemma inertia_join cs (ls : list (list (list Z))) :
  inertia cs (mjoin ls) = foldr Z.add 0%Z (inertia cs <$> ls).
Proof.
  induction ls as [|l ls IH]; [done|]. csimpl. by rewrite inertia_app, IH.
Qed.

(** A running sum that never rounds is the sum. *)
Lemma foldl_exact_sums acc qs :
  exact_sums acc qs →
  foldl PrimFloat.add (float_of_Z acc) (float_of_Z <$> qs)
  = float_of_Z (acc + foldr Z.add 0%Z qs).
Proof.
  revert acc. induction qs as [|q qs IH]; intros acc; cbn.
  - intros _. by rewrite Z.add_0_r.
  - intros [Hq Hqs]. rewrite Hq, (IH _ Hqs). f_equal. lia.
Qed.

(** C7.  On a fitted estimator [score] returns the negation of the sum
    of the per-shard partial inertias, one per shard of the input, added
    up in binary64 from [0.0] in shard order; each partial inertia is
    the single-GPU score of its shard with the sign flipped.  On an input
    of one shard this is the single-GPU score of that shard, that is,
    minus the inertia the engine computes for the unsplit data.  On an
    input of [k] shards it is minus the inertia of the unsplit dataset
    when every partial inertia is exact and no addition of the running
    sum rounds; when an addition rounds, no equality is stated. *)
Theorem score_negated_sum_of_partials rows_of model_score X s c m :
  local_model s = Some m →
  let r := score rows_of model_score X (mkWorld s c) in
  let shards := (coll_parts X).*2 in
  let cs := lm_cluster_centers_ m in
  r.1 = inr (- cp_sum (partial_inertia rows_of model_score m <$> shards))%float ∧
  length (partial_inertia rows_of model_score m <$> shards)
  = length (coll_parts X) ∧
  (∀ p, shards = [p] →
        _score rows_of model_score m p ≠ 0%float →
        r.1 = inr (model_score m (rows_of p))) ∧
  (Forall (λ p, partial_inertia rows_of model_score m p
                = float_of_Z (inertia cs (rows_of p))) shards →
   exact_sums 0 ((λ p, inertia cs (rows_of p)) <$> shards) →
   r.1 = inr (- float_of_Z (inertia cs (mjoin (rows_of <$> shards))))%float).
Proof.
  intros Hm r shards cs. subst r. rewrite (run_score _ _ _ _ _ _ Hm).
  cbn [fst]. fold shards.
  assert ((λ x, x * -1)%float <$> (_score rows_of model_score m <$> shards)
          = partial_inertia rows_of model_score m <$> shards) as ->.
  { rewrite <- list_fmap_compose. apply list_fmap_ext.
    intros i p _. cbn. apply fmul_m1_r. }
  rewrite fmul_m1_l. split_and!; [done| | |].
  - unfold shards. by rewrite !length_fmap.
  - intros p -> Hp. cbn [fmap list_fmap cp_sum foldl]. f_equal.
    unfold partial_inertia. rewrite fadd_0_l.
    + apply fopp_involutive.
    + intros H. apply Hp. apply fopp_inj. rewrite H. reflexivity.
  - intros Hexact Hsums. do 2 f_equal.
    assert (partial_inertia rows_of model_score m <$> shards
            = float_of_Z <$> ((λ p, inertia cs (rows_of p)) <$> shards)) as ->.
    { rewrite <- list_fmap_compose. apply list_fmap_ext.
      intros i p Hp. eapply Forall_lookup_1 in Hexact; [|done]. done. }
    unfold cp_sum. change 0%float with (float_of_Z 0).
    rewrite (foldl_exact_sums _ _ Hsums), inertia_join.
    by rewrite <- list_fmap_compose.
Qed.

Lemma score_negated_sum_of_partials_witness :
  (score demo_rows demo_score demo_score_near
     (mkWorld demo_fitted (demo_cluster []))).1
  = inr (-12)%float.
Proof.
  destruct (score_negated_sum_of_partials demo_rows demo_score demo_score_near
              demo_fitted (demo_cluster []) demo_model eq_refl) as (_&_&_&H).
  cbv zeta in H. rewrite H.
  - vm_compute. reflexivity.
  - repeat constructor.
  - repeat split.
Defined.

(** Exact equality with the unsplit inertia fails at three shards.
    Every shard's partial inertia is exact, and so is the sum of the three as an integer,
    [2^54 + 12], which is a binary64 number; yet the reduction returns
    minus [2^54 + 16], which is neither minus the inertia of the unsplit
    dataset nor the single-GPU score of the unsplit dataset. *)
Lemma score_not_minus_unsplit_inertia :
  let shards := (coll_parts demo_score_X).*2 in
  let rows := mjoin (demo_rows <$> shards) in
  let cs := lm_cluster_centers_ demo_model in
  ∃ v,
    (score demo_rows demo_score demo_score_X
       (mkWorld demo_fitted (demo_cluster []))).1 = inr v ∧
    partial_inertia demo_rows demo_score demo_model <$> shards
    = (λ p, float_of_Z (inertia cs (demo_rows p))) <$> shards ∧
    inertia cs rows = (2 ^ 54 + 12)%Z ∧
    Prim2SF (float_of_Z (- inertia cs rows))
    = S754_finite true (2 ^ 52 + 3) 2 ∧
    v = float_of_Z (- (2 ^ 54 + 16)) ∧
    v ≠ float_of_Z (- inertia cs rows) ∧
    v ≠ demo_score demo_model rows.
Proof.
  intros shards rows cs. eexists. split; [vm_compute; reflexivity|].
  split_and!; try (vm_compute; reflexivity).
  - intros H. apply (f_equal Prim2SF) in H. vm_compute in H. discriminate.
  - intros H. apply (f_equal Prim2SF) in H. vm_compute in H. discriminate.
Qed.

(** C8.  A fit call opens one session, over [data.workers], and these
    are exactly the workers that hold at least one shard of the input:
    every enrolled worker owns a shard and no worker without shards is
    enrolled. *)
Theorem fit_session_over_shard_holders X sw s c data :
  cluster_wf c →
  DistributedDataHandler_create (fit_inputs X sw) = inr data →
  comms_ready (fresh_session c) (workers data) = true →
  let r := fit X sw (mkWorld s c) in
  omap init_of (new_events c r.2) = [(round_sid c, workers data)] ∧
  ∀ w, w ∈ workers data ↔ holds_shard w (fit_inputs X sw).
Proof.
  intros Hwf Hd Hr r.
  pose proof (fit_log X sw s c data Hwf Hd Hr) as Hlog. cbv zeta in Hlog.
  fold r in Hlog. split.
  - rewrite Hlog, omap_app, inits_round_log.
    by destruct r.1 as [[]|].
  - by destruct (create_spec _ _ Hd) as (_&_&_&_&_&_&Hws).
Qed.

Lemma fit_session_over_shard_holders_witness :
  let c := demo_cluster [] in
  omap init_of (new_events c (fit demo_X (Some demo_W) (mkWorld demo_kmeans c)).2)
  = [(0, {["w0"; "w1"]})].
Proof.
  intros c.
  assert (cluster_wf c) as Hwf by demo_wf.
  destruct (fit_session_over_shard_holders demo_X (Some demo_W) demo_kmeans c
              (mk_handler (pair_parts (coll_parts demo_X) (coll_parts demo_W))
                 Cupy true)
              Hwf eq_refl eq_refl) as (H1&_).
  rewrite H1. vm_compute. reflexivity.
Defined.

(** C9.  If sample weights are given and on some worker the row counts
    of the weight shards are not, one by one, those of the feature
    shards, [fit] raises [ShardAlignmentError] and leaves the world as it
    found it: no session has been opened and no task submitted. *)
Theorem fit_misaligned_weights_rejected X W σ :
  (∃ w, rows_on w (coll_parts X) ≠ rows_on w (coll_parts W)) →
  let r := fit X (Some W) σ in
  r.1 = inl ShardAlignmentError ∧ r.2 = σ ∧
  new_events (cluster σ) r.2 = [].
Proof.
  intros [w Hw] r. subst r.
  rewrite (fit_create_fails X (Some W) ShardAlignmentError).
  - split_and!; [done..|]. unfold new_events. cbn. apply drop_all.
  - cbn. destruct (alignedb _ _) eqn:Hal; [|done].
    apply alignedb_spec in Hal. by destruct Hw.
Qed.

Lemma fit_misaligned_weights_rejected_witness :
  let σ := mkWorld demo_kmeans (demo_cluster []) in
  rows_on "w0" (coll_parts demo_X) ≠ rows_on "w0" (coll_parts demo_W_bad) ∧
  fit demo_X (Some demo_W_bad) σ = (inl ShardAlignmentError, σ).
Proof.
  intros σ.
  assert (rows_on "w0" (coll_parts demo_X)
          ≠ rows_on "w0" (coll_parts demo_W_bad)) as Hw
    by (vm_compute; discriminate).
  destruct (fit_misaligned_weights_rejected demo_X demo_W_bad σ
              (ex_intro _ "w0" Hw)) as (H1&H2&_).
  split; [done|]. by apply injective_projections.
Defined.

(** C10.  [fit_predict(X, sample_weight, delayed)] is [fit(X)] followed
    by [predict(X, delayed)]: whatever [sample_weight] is, the result and
    the world are those of the call without weights. *)
Theorem fit_predict_ignores_sample_weight {R} (_predict : Coll → bool → M R)
    X sample_weight delayed σ :
  fit_predict _predict X sample_weight delayed σ =
    (fit X None ≫= λ _, predict _predict X delayed) σ ∧
  fit_predict _predict X sample_weight delayed σ =
    fit_predict _predict X None delayed σ.
Proof. done. Qed.

(** Weights that [fit] itself rejects do not stop [fit_predict]. *)
Example fit_predict_with_misaligned_weights :
  let σ := mkWorld demo_kmeans (demo_cluster []) in
  (fit demo_X (Some demo_W_bad) σ).1 = inl ShardAlignmentError ∧
  (fit_predict (λ _ _, get_self) demo_X (Some demo_W_bad) true σ).1
  = inr (mkKMeans false [("n_clusters", 2%Z)] (Some Cupy)
           (Some (mkLocalModel "w0" [[15%Z]])) (Some [[15%Z]])).
Proof. split; vm_compute; reflexivity. Qed.

(** ** Further properties of the methods *)

(** What a fit call does to the estimator, whatever the cluster does: a
    rejected input leaves the world alone; past that point the datatype
    is assigned, and the model is assigned exactly when the call
    returns. *)
Lemma fit_self X sw s c :
  let r := fit X sw (mkWorld s c) in
  match DistributedDataHandler_create (fit_inputs X sw) with
  | inl e => r = (inl e, mkWorld s c)
  | inr data =>
      (∃ e, r.1 = inl e ∧ self r.2 = set_datatype (datatype data) s) ∨
      (∃ m, r.1 = inr () ∧ self r.2 = fitted (datatype data) m s)
  end.
Proof.
  cbv zeta.
  destruct (DistributedDataHandler_create (fit_inputs X sw)) as [e|data] eqn:Hd.
  { by apply fit_create_fails. }
  destruct (comms_ready (fresh_session c) (workers data)) eqn:Hr.
  2:{ rewrite (fit_comms_fails _ _ _ _ _ Hd Hr). left. by eexists. }
  unfold fit. cbv zeta. rewrite run_bind. unfold lift_exn.
  rewrite Hd. cbv beta iota.
  rewrite run_bind, run_modify_self. cbv beta iota.
  rewrite run_bind, run_comms_new. cbv beta iota.
  rewrite run_bind, run_comms_init, Hr. cbv beta iota.
  rewrite run_bind, run_get_self. cbv beta iota.
  rewrite run_bind. cbn [attr self_datatype set_datatype].
  rewrite run_ret. cbv beta iota.
  rewrite run_bind.
  destruct (submit_raises s data) eqn:Hcall.
  { rewrite (submit_raises_true_calls _ _ _ _ _ _ Hcall). left. by eexists. }
  rewrite (submit_raises_false_calls _ _ _ _ _ _ Hcall).
  rewrite (mapM_submit (fit_args (next_session c) (datatype data)
             (multiple data) (kwargs s))).
  cbv beta iota.
  rewrite run_bind, run_wait. cbv beta iota.
  unfold raise_exception_from_futures.
  rewrite !run_bind, mapM_future_exception. cbv beta iota.
  destruct (omap id _) as [|e causes].
  2:{ left. by eexists. }
  rewrite run_ret. cbv beta iota.
  rewrite run_bind, run_comms_destroy. cbv beta iota.
  unfold select_model. rewrite !run_bind.
  destruct (seq _ _) as [|k ks].
  { left. by eexists. }
  cbn [index0]. rewrite run_ret. cbv beta iota. rewrite run_future_result.
  destruct (settled _ !! k) as [[m|e]|].
  - right. by exists m.
  - left. by eexists.
  - left. by eexists.
Qed.

Lemma fit_success_closes_once_witness :
  let c := demo_cluster [] in
  let r := fit demo_X None (mkWorld demo_kmeans c) in
  r.1 = inr () ∧
  closes 0 (new_events c r.2) = 1 ∧
  sessions (cluster r.2) !! 0 = None.
Proof.
  intros c r.
  assert (cluster_wf c) as Hwf by demo_wf.
  assert (r.1 = inr ()) as Hok by (vm_compute; reflexivity).
  destruct (fit_success_closes_once demo_X None demo_kmeans c demo_data
              Hwf eq_refl eq_refl Hok) as [H1 H2].
  by split_and!.
Defined.

(** X2.  [fit] never touches the hyperparameters: whatever the input and
    however the call ends, [kwargs] and [verbose] are what they were, and
    so is the answer of [get_param_names]. *)
Theorem fit_keeps_hyperparameters X sw s c :
  let r := fit X sw (mkWorld s c) in
  kwargs (self r.2) = kwargs s ∧
  verbose (self r.2) = verbose s ∧
  get_param_names (self r.2) = get_param_names s.
Proof.
  cbv zeta. pose proof (fit_self X sw s c) as H. cbv zeta in H.
  unfold get_param_names.
  destruct (DistributedDataHandler_create _) as [e|data].
  - by rewrite H.
  - by destruct H as [(e&_&->)|(m&_&->)].
Qed.

(** X3.  [self.datatype] is assigned before anything is done on the
    cluster: after a call whose input was accepted it is the layout of
    [X], whether the call returned, failed to open its session or lost a
    task; after a call whose input was rejected it is what it was. *)
Theorem fit_assigns_datatype X sw s c :
  let r := fit X sw (mkWorld s c) in
  self_datatype (self r.2) =
  match DistributedDataHandler_create (fit_inputs X sw) with
  | inl _ => self_datatype s
  | inr _ => Some (coll_type X)
  end.
Proof.
  cbv zeta. pose proof (fit_self X sw s c) as H. cbv zeta in H.
  destruct (DistributedDataHandler_create _) as [e|data] eqn:Hd.
  - by rewrite H.
  - destruct (create_spec _ _ Hd) as (Hdt&_).
    rewrite inputs_X_fit_inputs in Hdt. rewrite <- Hdt.
    by destruct H as [(e&_&->)|(m&_&->)].
Qed.

(** X4.  A model is published exactly when [fit] returns: if the call
    raises, whatever the exception, [local_model] and [cluster_centers_]
    are what they were; if it returns, [local_model] is a model and
    [cluster_centers_] is that model's centroid matrix. *)
Theorem fit_publishes_iff_returns X sw s c :
  let r := fit X sw (mkWorld s c) in
  match r.1 with
  | inl _ =>
      local_model (self r.2) = local_model s ∧
      cluster_centers_ (self r.2) = cluster_centers_ s
  | inr _ =>
      ∃ m, local_model (self r.2) = Some m ∧
           cluster_centers_ (self r.2) = Some (lm_cluster_centers_ m)
  end.
Proof.
  cbv zeta. pose proof (fit_self X sw s c) as H. cbv zeta in H.
  destruct (DistributedDataHandler_create _) as [e|data].
  - by rewrite H.
  - destruct H as [(e&->&->)|(m&->&->)]; [done|]. by exists m.
Qed.

Lemma empty_assignment X sw data :
  DistributedDataHandler_create (fit_inputs X sw) = inr data →
  coll_parts X = [] → worker_to_parts data = [].
Proof.
  intros Hd HX. destruct (create_spec _ _ Hd) as (_&_&->&Hk&_).
  rewrite inputs_X_fit_inputs, HX in Hk.
  by apply fmap_nil_inv in Hk as ->.
Qed.

(** X5.  An input without partitions: the session is opened and closed
    again, no task is submitted, and the call ends in the [IndexError] of
    [kmeans_fit[0]]; no model is published. *)
Theorem fit_without_partitions X sw s c data :
  cluster_wf c →
  DistributedDataHandler_create (fit_inputs X sw) = inr data →
  comms_ready (fresh_session c) (workers data) = true →
  coll_parts X = [] →
  let r := fit X sw (mkWorld s c) in
  r.1 = inl IndexError ∧
  omap submit_of (new_events c r.2) = [] ∧
  omap init_of (new_events c r.2) = [(round_sid c, workers data)] ∧
  closes (round_sid c) (new_events c r.2) = 1 ∧
  local_model (self r.2) = local_model s.
Proof.
  intros Hwf Hd Hr HX r.
  pose proof (empty_assignment _ _ _ Hd HX) as Hwtp.
  assert (submit_raises s data = false) as Hcall.
  { unfold submit_raises. by rewrite Hwtp. }
  pose proof (fit_log X sw s c data Hwf Hd Hr) as Hlog. cbv zeta in Hlog.
  fold r in Hlog.
  assert (r = (inl IndexError,
               mkWorld (set_datatype (datatype data) s) (destroyed s c data)))
    as Hrun.
  { subst r. rewrite (fit_run_ok _ _ _ _ _ Hwf Hd Hr Hcall).
    unfold run_round, task_outcomes. by rewrite Hwtp. }
  rewrite Hlog. rewrite Hrun. cbn [fst snd round_tail self]. split_and!.
  - done.
  - rewrite omap_app, submits_round_log, Hcall, Hwtp. done.
  - rewrite omap_app, inits_round_log. done.
  - unfold closes. rewrite filter_app, length_app.
    fold (closes (round_sid c) (round_log s c data)).
    rewrite closes_round_log.
    by rewrite filter_cons, decide_True
      by (cbn; by rewrite bool_decide_eq_true_2).
  - done.
Qed.

Lemma fit_without_partitions_witness :
  let c := demo_cluster [] in
  let r := fit demo_empty None (mkWorld demo_kmeans c) in
  r.1 = inl IndexError ∧ omap submit_of (new_events c r.2) = [] ∧
  closes 0 (new_events c r.2) = 1.
Proof.
  intros c r.
  assert (cluster_wf c) as Hwf by demo_wf.
  destruct (fit_without_partitions demo_empty None demo_kmeans c
              (mk_handler [] Cudf false) Hwf eq_refl eq_refl eq_refl)
    as (H1&H2&_&H4&_).
  by split_and!.
Defined.

(** X6.  When the session cannot be opened the call ends there: nothing
    is logged on the cluster (no session, no task, no barrier), the open
    sessions are those of before, and of the estimator only the datatype
    has changed. *)
Theorem fit_comms_init_failure X sw s c data :
  DistributedDataHandler_create (fit_inputs X sw) = inr data →
  comms_ready (fresh_session c) (workers data) = false →
  let r := fit X sw (mkWorld s c) in
  r.1 = inl CommsInitError ∧
  new_events c r.2 = [] ∧
  sessions (cluster r.2) = sessions c ∧
  tasks (cluster r.2) = tasks c ∧
  self r.2 = set_datatype (datatype data) s.
Proof.
  intros Hd Hr r. subst r. rewrite (fit_comms_fails _ _ _ _ _ Hd Hr).
  split_and!; try done. unfold new_events. cbn. apply drop_all.
Qed.

Lemma fit_comms_init_failure_witness :
  let c := demo_cluster_down in
  let r := fit demo_X None (mkWorld demo_kmeans c) in
  comms_ready (fresh_session c) (workers demo_data) = false ∧
  r.1 = inl CommsInitError ∧ new_events c r.2 = [].
Proof.
  intros c r.
  assert (comms_ready (fresh_session c) (workers demo_data) = false) as Hr
    by (vm_compute; reflexivity).
  destruct (fit_comms_init_failure demo_X None demo_kmeans c demo_data
              eq_refl Hr) as (H1&H2&_).
  by split_and!.
Defined.

(** Grouping by worker neither drops nor repeats an object. *)
Lemma join_add_part w o m : mjoin (add_part w o m).*2 ≡ₚ o :: mjoin m.*2.
Proof.
  induction m as [|[v os] m IH]; cbn; [done|].
  case_decide; cbn.
  - rewrite <- app_assoc. cbn. symmetry. apply Permutation_middle.
  - rewrite IH. symmetry. apply Permutation_middle.
Qed.

Lemma join_workers_to_parts fs : mjoin (workers_to_parts fs).*2 ≡ₚ fs.*2.
Proof.
  unfold workers_to_parts.
  assert (∀ m, mjoin (foldl (λ m f, add_part f.1 f.2 m) m fs).*2
               ≡ₚ mjoin m.*2 ++ fs.*2) as H; [|apply (H [])].
  induction fs as [|[w o] fs IH]; intros m; cbn; [by rewrite app_nil_r|].
  rewrite IH, join_add_part. cbn. apply Permutation_middle.
Qed.

Lemma features_create X sw data :
  DistributedDataHandler_create (fit_inputs X sw) = inr data →
  obj_x <$> (gpu_futures data).*2 = (coll_parts X).*2.
Proof.
  destruct sw as [W|]; cbn.
  - destruct (alignedb _ _); [|done]. intros [= <-]. cbn.
    generalize (coll_parts W) as W0.
    induction (coll_parts X) as [|[w x] X0 IH]; intros W0; cbn; [done|].
    destruct (take_on w W0) as [[q R]|]; cbn; by rewrite IH.
  - intros [= <-]. cbn.
    induction (coll_parts X) as [|[w x] X0 IH]; cbn; [done|]. by rewrite IH.
Qed.

Lemma fmap_join_objs (ls : list (list Obj)) :
  mjoin (fmap (M:=list) obj_x <$> ls) = obj_x <$> mjoin ls.
Proof.
  induction ls as [|l ls IH]; csimpl; [done|]. by rewrite IH, fmap_app.
Qed.

Lemma total_rows_join (ls : list (list Part)) :
  sum_list (total_rows <$> ls) = total_rows (mjoin ls).
Proof.
  unfold total_rows. induction ls as [|l ls IH]; csimpl; [done|].
  by rewrite IH, fmap_app, sum_list_with_app.
Qed.

(** The assignment neither drops nor repeats a partition: the feature
    partitions of the tasks, taken together, are the partitions of [X],
    each once, and the rows of the arrays the tasks concatenate add up to
    the rows of [X]. *)
Lemma fit_tasks_cover_input X sw data :
  DistributedDataHandler_create (fit_inputs X sw) = inr data →
  mjoin ((λ wf, obj_x <$> wf.2) <$> worker_to_parts data)
    ≡ₚ (coll_parts X).*2 ∧
  sum_list ((λ wf, block_rows (concatenate (obj_x <$> wf.2)))
              <$> worker_to_parts data)
    = total_rows (coll_parts X).*2.
Proof.
  intros Hd. destruct (create_spec _ _ Hd) as (_&_&Hwtp&_).
  assert (mjoin ((λ wf, obj_x <$> wf.2) <$> worker_to_parts data)
            ≡ₚ (coll_parts X).*2) as Hperm.
  { replace ((λ wf : worker * list Obj, obj_x <$> wf.2) <$> worker_to_parts data)
      with (fmap (M:=list) obj_x <$> (worker_to_parts data).*2)
      by by rewrite <- list_fmap_compose.
    rewrite fmap_join_objs, Hwtp, join_workers_to_parts.
    by rewrite (features_create _ _ _ Hd). }
  split; [done|].
  transitivity (total_rows
    (mjoin ((λ wf : worker * list Obj, obj_x <$> wf.2) <$> worker_to_parts data))).
  - rewrite <- total_rows_join, <- list_fmap_compose. done.
  - unfold total_rows. by rewrite Hperm.
Qed.

(** X7.  A fit call whose submit call is well formed (no hyperparameter
    named [workers] or [pure]) submits as many tasks as there are
    workers in its session, and otherwise none; the workers are at most
    as many as the partitions of [X]: the partitions of one worker go to
    one task. *)
Theorem fit_task_count X sw s c data :
  cluster_wf c →
  DistributedDataHandler_create (fit_inputs X sw) = inr data →
  comms_ready (fresh_session c) (workers data) = true →
  let r := fit X sw (mkWorld s c) in
  length (omap submit_of (new_events c r.2))
  = (if submit_raises s data then 0 else size (workers data)) ∧
  (size (workers data) ≤ length (coll_parts X))%nat.
Proof.
  intros Hwf Hd Hr r.
  pose proof (fit_log X sw s c data Hwf Hd Hr) as Hlog. cbv zeta in Hlog.
  fold r in Hlog.
  destruct (create_spec _ _ Hd) as (_&Hws&Hwtp&Hkeys&_).
  rewrite inputs_X_fit_inputs in *.
  destruct (workers_to_parts_spec (gpu_futures data)) as [Hnd Hin].
  rewrite <- Hwtp in Hnd, Hin.
  assert (∀ w, w ∈ (worker_to_parts data).*1 ↔ w ∈ (gpu_futures data).*1)
    as Hsame.
  { intros w. rewrite list_elem_of_fmap. split.
    - intros ([v os]&->&Hm). by apply Hin in Hm as [? _].
    - intros Hw. exists (w, objs_on w (gpu_futures data)). split; [done|].
      by apply Hin. }
  assert (size (workers data) = length (worker_to_parts data)) as Hsize.
  { rewrite Hws, <- Hkeys.
    replace (list_to_set (gpu_futures data).*1 : gset string)
      with (list_to_set (worker_to_parts data).*1 : gset string).
    - rewrite size_list_to_set by done. apply length_fmap.
    - apply set_eq. intros w. by rewrite !elem_of_list_to_set. }
  split.
  - rewrite Hlog, omap_app, submits_round_log.
    assert (omap submit_of (round_tail c r.1) = []) as ->
      by by destruct r.1 as [[]|].
    rewrite app_nil_r. destruct (submit_raises s data); [done|].
    by rewrite length_imap.
  - rewrite Hsize, <- (length_fmap fst (worker_to_parts data)).
    rewrite <- (length_fmap fst (coll_parts X)), <- Hkeys.
    apply submseteq_length, NoDup_submseteq; [done|]. intros w. apply Hsame.
Qed.

Lemma fit_task_count_witness :
  let c := demo_cluster [] in
  length (omap submit_of
            (new_events c (fit demo_X None (mkWorld demo_kmeans c)).2)) = 2.
Proof.
  intros c.
  assert (cluster_wf c) as Hwf by demo_wf.
  destruct (fit_task_count demo_X None demo_kmeans c demo_data
              Hwf eq_refl eq_refl) as [H _].
  rewrite H. vm_compute. reflexivity.
Defined.

Lemma all_pairs_pairs (pairs : list (Part * Part)) :
  all_pairs ((λ p, OPair p.1 p.2) <$> pairs) = Some (pairs.*1, pairs.*2).
Proof.
  induction pairs as [|[x q] pairs IH]; [done|]. cbn. cbn in IH. by rewrite IH.
Qed.

(** X8.  With weights, a task on a worker that holds a handle of the
    session hands the engine the feature partitions and the weight
    partitions of its pairs, each glued in the order of the pairs; the
    two arrays have the same number of rows when each pair agrees on its
    row count. *)
Theorem func_fit_pairs_rows c w sid (pairs : list (Part * Part)) dt kw h :
  worker_state c w sid = Some h →
  let objs := (λ p, OPair p.1 p.2) <$> pairs in
  let d := concatenate pairs.*1 in
  let wt := concatenate pairs.*2 in
  _func_fit c w sid objs dt true kw = engine c h dt kw d (Some wt) ∧
  block_parts d = obj_x <$> objs ∧
  block_parts wt = omap obj_w objs ∧
  (Forall (λ p, part_rows p.1 = part_rows p.2) pairs →
   part_rows <$> block_parts d = part_rows <$> block_parts wt ∧
   block_rows d = block_rows wt).
Proof.
  intros Hh objs d wt. subst objs d wt. split_and!.
  - unfold _func_fit. by rewrite Hh, all_pairs_pairs.
  - cbn [concatenate block_parts]. by rewrite <- list_fmap_compose.
  - cbn [concatenate block_parts].
    induction pairs as [|[x q] pairs IH]; [done|]. cbn. by rewrite <- IH.
  - intros Hrows.
    assert (part_rows <$> pairs.*1 = part_rows <$> pairs.*2) as Heq.
    { induction Hrows as [|[x q] pairs Hp _ IH]; [done|]. cbn in *.
      by rewrite Hp, IH. }
    cbn [concatenate block_parts block_rows]. by rewrite Heq.
Qed.

Lemma func_fit_pairs_rows_witness :
  let c := opened (demo_cluster []) demo_data_weighted in
  let objs := [OPair (mkPart 0 10) (mkPart 3 10);
               OPair (mkPart 2 5) (mkPart 4 7)] in
  _func_fit c "w0" 0 objs Cupy true [("n_clusters", 2%Z)] =
  engine c (mkHandle 0 "w0") Cupy [("n_clusters", 2%Z)]
    (concatenate [mkPart 0 10; mkPart 2 5])
    (Some (concatenate [mkPart 3 10; mkPart 4 7])).
Proof.
  intros c objs.
  assert (worker_state c "w0" 0 = Some (mkHandle 0 "w0")) as Hh
    by (vm_compute; reflexivity).
  destruct (func_fit_pairs_rows c "w0" 0
              [(mkPart 0 10, mkPart 3 10); (mkPart 2 5, mkPart 4 7)]
              Cupy [("n_clusters", 2%Z)] _ Hh) as (H1&_).
  exact H1.
Defined.

Lemma fit_success_session_gone X sw s c data :
  cluster_wf c →
  DistributedDataHandler_create (fit_inputs X sw) = inr data →
  comms_ready (fresh_session c) (workers data) = true →
  (fit X sw (mkWorld s c)).1 = inr () →
  sessions (cluster (fit X sw (mkWorld s c)).2)
  = delete (round_sid c) (sessions c).
Proof.
  intros Hwf Hd Hr. rewrite (fit_run _ _ _ _ _ Hwf Hd Hr).
  unfold round_result, round_outcomes.
  destruct (submit_raises s data); [done|]. unfold run_round. cbv zeta.
  destruct (omap failure (task_outcomes s c data)); [|done].
  destruct (task_outcomes s c data) as [|[m|e] outs]; [done| |done].
  intros _. cbn. rewrite sessions_inspected by done.
  apply delete_insert_eq.
Qed.

(** X9.  A failing fit stops [fit_predict] and [fit_transform]: when a
    fit task fails, both raise the aggregated error of [fit] and leave
    the world as [fit] left it; the inference step is not reached,
    whatever it would do. *)
Theorem fit_failure_stops_inference {R1 R2}
    (_predict : Coll → bool → M R1) (_transform : Coll → nat → bool → M R2)
    X sw delayed s c data i e :
  cluster_wf c →
  DistributedDataHandler_create (fit_inputs X None) = inr data →
  comms_ready (fresh_session c) (workers data) = true →
  round_outcomes s c data !! i = Some (Failed e) →
  let r := fit X None (mkWorld s c) in
  let err := DistributedFitError (omap failure (round_outcomes s c data)) in
  fit_predict _predict X sw delayed (mkWorld s c) = (inl err, r.2) ∧
  fit_transform _transform X delayed (mkWorld s c) = (inl err, r.2).
Proof.
  intros Hwf Hd Hr Hi r err. subst r err.
  unfold fit_predict, fit_transform. rewrite !run_bind.
  by rewrite (fit_run_failure _ _ _ _ _ _ _ Hwf Hd Hr Hi).
Qed.

Lemma fit_failure_stops_inference_witness :
  let σ := mkWorld demo_kmeans (demo_cluster ["w1"]) in
  (fit_predict (λ _ _, get_self) demo_X (Some demo_W) true σ).1
    = inl (DistributedFitError [EngineError "w1"]) ∧
  (fit_transform (λ _ _ _, get_self) demo_X true σ).1
    = inl (DistributedFitError [EngineError "w1"]).
Proof.
  intros σ.
  assert (round_outcomes demo_kmeans (demo_cluster ["w1"]) demo_data !! 1
          = Some (Failed (EngineError "w1"))) as Hi by (vm_compute; reflexivity).
  assert (cluster_wf (demo_cluster ["w1"])) as Hwf by demo_wf.
  destruct (fit_failure_stops_inference (λ _ _, get_self) (λ _ _ _, get_self)
              demo_X (Some demo_W) true demo_kmeans (demo_cluster ["w1"])
              demo_data 1 (EngineError "w1") Hwf eq_refl eq_refl Hi)
    as [H1 H2].
  subst σ. rewrite H1, H2. split; vm_compute; reflexivity.
Defined.

(** X10.  After a fit that returns, [fit_predict] and [fit_transform]
    run the inference step once, in the world [fit] left: on the
    estimator that holds the model of the first worker, with the session
    of the fit closed; [transform] asks for two dimensions. *)
Theorem fit_success_then_inference {R1 R2}
    (_predict : Coll → bool → M R1) (_transform : Coll → nat → bool → M R2)
    X sw delayed s c data :
  cluster_wf c →
  DistributedDataHandler_create (fit_inputs X None) = inr data →
  comms_ready (fresh_session c) (workers data) = true →
  let r := fit X None (mkWorld s c) in
  r.1 = inr () →
  fit_predict _predict X sw delayed (mkWorld s c) = _predict X delayed r.2 ∧
  fit_transform _transform X delayed (mkWorld s c)
    = _transform X 2 delayed r.2 ∧
  (∃ m, round_outcomes s c data !! 0 = Some (Done m) ∧
        self r.2 = fitted (datatype data) m s) ∧
  sessions (cluster r.2) !! round_sid c = None.
Proof.
  intros Hwf Hd Hr r Hok.
  assert (fit X None (mkWorld s c) = (inr (), r.2)) as Hrun.
  { subst r. by destruct (fit X None (mkWorld s c)) as [[e|[]] σ']. }
  unfold fit_predict, fit_transform, predict, transform.
  rewrite !run_bind, Hrun. split_and!; [done..| |].
  - subst r. clear Hrun. revert Hok. rewrite (fit_run _ _ _ _ _ Hwf Hd Hr).
    unfold round_result, round_outcomes.
    destruct (submit_raises s data); [done|]. unfold run_round. cbv zeta.
    destruct (omap failure (task_outcomes s c data)); [|done].
    destruct (task_outcomes s c data) as [|[m|e] outs]; [done| |done].
    intros _. by exists m.
  - subst r. rewrite (fit_success_session_gone X None s c data) by done.
    apply lookup_delete_eq.
Qed.

Lemma fit_success_then_inference_witness :
  let σ := mkWorld demo_kmeans (demo_cluster []) in
  (fit_transform (λ _ n _, s ← get_self; mret (n, local_model s))
     demo_X false σ).1
  = inr (2, Some (mkLocalModel "w0" [[15%Z]])).
Proof.
  intros σ.
  assert (cluster_wf (demo_cluster [])) as Hwf by demo_wf.
  assert ((fit demo_X None (mkWorld demo_kmeans (demo_cluster []))).1 = inr ())
    as Hok by (vm_compute; reflexivity).
  destruct (fit_success_then_inference (λ _ _, get_self)
              (λ _ n _, s ← get_self; mret (n, local_model s))
              demo_X None false demo_kmeans (demo_cluster []) demo_data
              Hwf eq_refl eq_refl Hok) as (_&H2&_).
  subst σ. rewrite H2. vm_compute. reflexivity.
Defined.

Lemma unreachable_settle c k : unreachable (settle c k) = unreachable c.
Proof. unfold settle. by destruct (settled c !! k), (tasks c !! k). Qed.

Lemma unreachable_foldl_settle l c :
  unreachable (foldl settle c l) = unreachable c.
Proof.
  revert c. induction l as [|k l IH]; intros c; [done|]. cbn.
  by rewrite IH, unreachable_settle.
Qed.

Lemma unreachable_foldl_submit f l c :
  unreachable (foldl (submit_step f) c l) = unreachable c.
Proof.
  revert c. induction l as [|wf l IH]; intros c; [done|]. cbn. by rewrite IH.
Qed.

Lemma enrolled_delete c c' sid x :
  sessions c' = delete sid (sessions c) → x ∈ enrolled c' → x ∈ enrolled c.
Proof.
  unfold enrolled. intros ->.
  rewrite !elem_of_union_list.
  intros (ws&([k ws']&->&Hk)%list_elem_of_fmap&Hx). exists ws'. split; [|done].
  apply elem_of_map_to_list, lookup_delete_Some in Hk as [_ Hk].
  apply list_elem_of_fmap. exists (k, ws'). split; [done|].
  by apply elem_of_map_to_list.
Qed.

(** X11.  A fit that returns leaves the cluster ready for the next one:
    the same workers can be enrolled again, the next call gets a session
    identifier of its own and runs a full new round. *)
Theorem fit_success_ready_again X sw s c data :
  cluster_wf c →
  DistributedDataHandler_create (fit_inputs X sw) = inr data →
  comms_ready (fresh_session c) (workers data) = true →
  let r := fit X sw (mkWorld s c) in
  r.1 = inr () →
  cluster_wf (cluster r.2) ∧
  comms_ready (fresh_session (cluster r.2)) (workers data) = true ∧
  round_sid (cluster r.2) = S (round_sid c) ∧
  fit X sw r.2 = round_result (self r.2) (cluster r.2) data.
Proof.
  intros Hwf Hd Hr r Hok.
  assert (cluster_wf (cluster r.2)) as Hwf' by by apply fit_preserves_wf.
  pose proof (fit_success_session_gone X sw s c data Hwf Hd Hr Hok) as Hs.
  fold r in Hs.
  assert (unreachable (cluster r.2) = unreachable c ∧
          next_session (cluster r.2) = S (next_session c)) as [Hu Hn].
  { subst r. revert Hok. rewrite (fit_run _ _ _ _ _ Hwf Hd Hr).
    unfold round_result, round_outcomes.
    destruct (submit_raises s data); [done|]. unfold run_round. cbv zeta.
    destruct (omap failure (task_outcomes s c data)); [|done].
    destruct (task_outcomes s c data) as [|[m|e] outs]; [done| |done].
    intros _. cbn. rewrite (inspected_eq s c data Hwf). cbn. unfold waited.
    rewrite unreachable_foldl_settle. cbn. unfold submitted.
    rewrite unreachable_foldl_submit. cbn.
    destruct (foldl_settle_frame
      (arrival c (round_keys c data) ++ round_keys c data)
      (log (EvWait (round_keys c data))
         (foldl (submit_step (round_args s c data)) (opened c data)
            (worker_to_parts data)))) as (_&_&_&_&->).
    cbn.
    by destruct (foldl_submit_frame (round_args s c data)
      (worker_to_parts data) (opened c data)) as (_&_&_&->&_). }
  assert (comms_ready (fresh_session (cluster r.2)) (workers data) = true)
    as Hr'.
  { unfold comms_ready in *. cbn in *. rewrite Hu.
    apply andb_true_iff in Hr as [Hr1 Hr2]. apply andb_true_iff.
    split; [done|]. apply bool_decide_eq_true_1 in Hr2.
    apply bool_decide_eq_true_2. intros x Hx Hx'.
    apply (Hr2 x Hx). by apply (enrolled_delete c (cluster r.2) (round_sid c)). }
  split_and!; [done..|].
  destruct r.2 as [s' c'] eqn:Hσ. by apply fit_run.
Qed.

Lemma fit_success_ready_again_witness :
  let r := fit demo_X None (mkWorld demo_kmeans (demo_cluster [])) in
  r.1 = inr () ∧ round_sid (cluster r.2) = 1 ∧
  (fit demo_X None r.2).1 = inr ().
Proof.
  intros r.
  assert (cluster_wf (demo_cluster [])) as Hwf by demo_wf.
  assert (r.1 = inr ()) as Hok by (vm_compute; reflexivity).
  destruct (fit_success_ready_again demo_X None demo_kmeans (demo_cluster [])
              demo_data Hwf eq_refl eq_refl Hok) as (_&_&H3&H4).
  split_and!; [done|done|]. subst r. cbv zeta in H4. rewrite H4.
  vm_compute. reflexivity.
Defined.

Lemma no_failures outs :
  omap failure outs = [] → Forall (λ o, failure o = None) outs.
Proof.
  induction outs as [|[m|e] outs IH]; cbn; [done| |done].
  intros H. apply Forall_cons. split; [done|by apply IH].
Qed.

(** X12.  How a fit call that got its session can end: it returns, and
    then every task returned a model; or it raises the aggregated error,
    and then some task failed; or the input had no partitions and it
    raises [IndexError]; or a hyperparameter is named [workers] or
    [pure], the first submit call is rejected with a [TypeError] and no
    task was submitted.  The [result()] of the first future is read only
    when no task failed, so it never re-raises a task's exception. *)
Theorem fit_round_endings X sw s c data :
  cluster_wf c →
  DistributedDataHandler_create (fit_inputs X sw) = inr data →
  comms_ready (fresh_session c) (workers data) = true →
  let r := fit X sw (mkWorld s c) in
  let outs := round_outcomes s c data in
  (r.1 = inr () ∧ outs ≠ [] ∧ Forall (λ o, failure o = None) outs) ∨
  (r.1 = inl IndexError ∧ worker_to_parts data = []) ∨
  (r.1 = inl CallTypeError ∧ worker_to_parts data ≠ [] ∧
   duplicate_keyword (kwargs s) = true ∧
   omap submit_of (new_events c r.2) = []) ∨
  (∃ e causes, r.1 = inl (DistributedFitError (e :: causes)) ∧
               e :: causes = omap failure outs).
Proof.
  intros Hwf Hd Hr. cbv zeta.
  pose proof (fit_log X sw s c data Hwf Hd Hr) as Hlog. cbv zeta in Hlog.
  rewrite Hlog, omap_app, submits_round_log.
  rewrite (fit_run _ _ _ _ _ Hwf Hd Hr). unfold round_result, round_outcomes.
  destruct (submit_raises s data) eqn:Hcall.
  { right. right. left. unfold submit_raises in Hcall.
    by destruct (worker_to_parts data). }
  unfold run_round. cbv zeta.
  destruct (omap failure (task_outcomes s c data)) as [|e causes] eqn:Hf.
  2:{ right. right. right. by exists e, causes. }
  pose proof (no_failures _ Hf) as Hall.
  destruct (task_outcomes s c data) as [|[m|e] outs] eqn:Ho.
  - right. left. split; [done|]. unfold task_outcomes in Ho.
    by apply fmap_nil_inv in Ho.
  - left. done.
  - done.
Qed.

Lemma fit_round_endings_witness :
  let c := demo_cluster ["w0"] in
  (fit demo_X None (mkWorld demo_kmeans c)).1
  = inl (DistributedFitError [EngineError "w0"]).
Proof.
  intros c.
  assert (cluster_wf c) as Hwf by demo_wf.
  destruct (fit_round_endings demo_X None demo_kmeans c demo_data
              Hwf eq_refl eq_refl) as [[H _]|[[H _]|[[H _]|(e&causes&H&_)]]].
  - vm_compute in H. discriminate.
  - vm_compute in H. discriminate.
  - vm_compute in H. discriminate.
  - vm_compute. reflexivity.
Defined.

(** X13.  A hyperparameter named [workers] or [pure] collides with the
    keyword of the same name in the submit call: with at least one
    partition to submit, the call raises a [TypeError] at the first
    submit.  By then the datatype is assigned and the session is open,
    and it stays open: no task is submitted, nothing is waited for, the
    session is not destroyed and no model is published. *)
Theorem fit_duplicate_keyword X sw s c data :
  DistributedDataHandler_create (fit_inputs X sw) = inr data →
  comms_ready (fresh_session c) (workers data) = true →
  worker_to_parts data ≠ [] →
  duplicate_keyword (kwargs s) = true →
  let r := fit X sw (mkWorld s c) in
  r.1 = inl CallTypeError ∧
  new_events c r.2 = [EvCommsInit (round_sid c) (workers data)] ∧
  sessions (cluster r.2) !! round_sid c = Some (workers data) ∧
  tasks (cluster r.2) = tasks c ∧
  self r.2 = set_datatype (datatype data) s.
Proof.
  intros Hd Hr Hne Hkw r.
  assert (submit_raises s data = true) as Hcall.
  { unfold submit_raises. by destruct (worker_to_parts data). }
  subst r. rewrite (fit_run_raises _ _ _ _ _ Hd Hr Hcall). cbn [fst snd].
  split_and!; [done| | |done|done].
  - unfold new_events, opened. cbn. by rewrite drop_app_length.
  - unfold opened. cbn. apply lookup_insert_eq.
Qed.

Lemma fit_duplicate_keyword_witness :
  let c := demo_cluster [] in
  let r := fit demo_X None (mkWorld demo_kmeans_workers c) in
  r.1 = inl CallTypeError ∧
  omap submit_of (new_events c r.2) = [] ∧
  closes 0 (new_events c r.2) = 0 ∧
  local_model (self r.2) = None.
Proof.
  intros c r.
  assert (worker_to_parts demo_data ≠ []) as Hne by done.
  destruct (fit_duplicate_keyword demo_X None demo_kmeans_workers c demo_data
              eq_refl eq_refl Hne eq_refl) as (H1&H2&_&_&H5).
  fold r in H1, H2, H5. rewrite H2, H5. by split_and!.
Defined.
